(** * stay_ledger: the Telegram ingestion path of [app.py]

    A shallow embedding of the command parser, the message handler, the
    polling loop and the guarded start of the poller thread, followed by the
    properties the specification states about them. *)

From Stdlib Require Import ZArith NArith List String Ascii Bool Lia Sorted
  SpecFloat DecimalN.
From stdpp Require Import base option list gmap strings.

Local Open Scope Z_scope.

(** ** Python strings

    A Python [str] is a sequence of Unicode code points.  Literals are written
    as UTF-8 text and decoded by [py]. *)

Module PyStr.

Definition pystr := list N.

Definition cp2 (b0 b1 : N) : N := ((b0 mod 32) * 64 + b1 mod 64)%N.
Definition cp3 (b0 b1 b2 : N) : N :=
  ((b0 mod 16) * 4096 + (b1 mod 64) * 64 + b2 mod 64)%N.
Definition cp4 (b0 b1 b2 b3 : N) : N :=
  ((b0 mod 8) * 262144 + (b1 mod 64) * 4096 + (b2 mod 64) * 64 + b3 mod 64)%N.

Fixpoint utf8_decode (bs : list N) : pystr :=
  match bs with
  | [] => []
  | b0 :: t0 =>
    if (b0 <? 128)%N then b0 :: utf8_decode t0
    else match t0 with
      | [] => []
      | b1 :: t1 =>
        if (b0 <? 224)%N then cp2 b0 b1 :: utf8_decode t1
        else match t1 with
          | [] => []
          | b2 :: t2 =>
            if (b0 <? 240)%N then cp3 b0 b1 b2 :: utf8_decode t2
            else match t2 with
              | [] => []
              | b3 :: t3 => cp4 b0 b1 b2 b3 :: utf8_decode t3
              end
          end
      end
  end.

Definition py (s : string) : pystr :=
  utf8_decode (map N_of_ascii (list_ascii_of_string s)).
Arguments py s%_string.

(** [str.isspace] for one code point: the code points CPython's
    [_PyUnicode_IsWhitespace] accepts; [str.strip()] and [str.split()]
    without arguments use it. *)
Definition isspace (c : N) : bool :=
  ((9 <=? c) && (c <=? 13) || (28 <=? c) && (c <=? 32)
   || (c =? 133) || (c =? 160) || (c =? 5760)
   || (8192 <=? c) && (c <=? 8202)
   || (c =? 8232) || (c =? 8233) || (c =? 8239) || (c =? 8287)
   || (c =? 12288))%N.

Fixpoint lstrip (s : pystr) : pystr :=
  match s with
  | [] => []
  | c :: s' => if isspace c then lstrip s' else s
  end.

Fixpoint rstrip (s : pystr) : pystr :=
  match s with
  | [] => []
  | c :: s' =>
    match rstrip s' with
    | [] => if isspace c then [] else [c]
    | r => c :: r
    end
  end.

(** [s.strip()] *)
Definition strip (s : pystr) : pystr := rstrip (lstrip s).

(** [s.split()]: maximal runs of non-whitespace code points; [tok] is the
    token being read. *)
Fixpoint split_from (tok : pystr) (s : pystr) : list pystr :=
  match s with
  | [] => match tok with [] => [] | _ => [tok] end
  | c :: s' =>
    if isspace c
    then match tok with [] => split_from [] s' | _ => tok :: split_from [] s' end
    else split_from (tok ++ [c]) s'
  end.

Definition split (s : pystr) : list pystr := split_from [] s.

(** A token: not empty, no whitespace in it. *)
Definition is_token (t : pystr) : Prop :=
  t ≠ [] ∧ Forall (fun c => isspace c = false) t.

(** [sep.join(l)] *)
Fixpoint join (sep : pystr) (l : list pystr) : pystr :=
  match l with
  | [] => []
  | [x] => x
  | x :: xs => x ++ sep ++ join sep xs
  end.

(** [needle in hay] *)
Definition contains (needle hay : pystr) : Prop :=
  ∃ pre post : pystr, hay = pre ++ needle ++ post.

(** [s.lower()] on the ASCII letters.  Code points outside ASCII are left as
    they are: the lowered strings of this program are only compared with the
    keywords help, start, add, expense, income, add_expense, add_income,
    /myid, myid and two CJK words, and the only code points outside ASCII
    whose Unicode lowercase contains an ASCII letter are U+212A (to k, a
    letter no keyword has) and U+0130 (to i followed by U+0307, which no
    keyword has), so every such comparison has the outcome it has under the
    full Unicode mapping. *)
Definition lower_char (c : N) : N :=
  if ((65 <=? c) && (c <=? 90))%N then (c + 32)%N else c.

Definition lower (s : pystr) : pystr := map lower_char s.

(** [s.startswith("/")] and [s[1:]] *)
Definition startswith_slash (s : pystr) : bool :=
  match s with
  | c :: _ => (c =? 47)%N
  | [] => false
  end.

(** Decimal digits of a natural number, as code points. *)
Fixpoint uint_digits (d : Decimal.uint) : pystr :=
  match d with
  | Decimal.Nil => []
  | Decimal.D0 d' => 48%N :: uint_digits d'
  | Decimal.D1 d' => 49%N :: uint_digits d'
  | Decimal.D2 d' => 50%N :: uint_digits d'
  | Decimal.D3 d' => 51%N :: uint_digits d'
  | Decimal.D4 d' => 52%N :: uint_digits d'
  | Decimal.D5 d' => 53%N :: uint_digits d'
  | Decimal.D6 d' => 54%N :: uint_digits d'
  | Decimal.D7 d' => 55%N :: uint_digits d'
  | Decimal.D8 d' => 56%N :: uint_digits d'
  | Decimal.D9 d' => 57%N :: uint_digits d'
  end.

Definition str_of_N (n : N) : pystr := uint_digits (N.to_uint n).

(** [str(z)] for an [int] *)
Definition str_of_Z (z : Z) : pystr :=
  match z with
  | Zneg p => 45%N :: str_of_N (Npos p)
  | _ => str_of_N (Z.to_N z)
  end.

(** [%0wd] for a natural number *)
Definition zero_pad (w : nat) (n : N) : pystr :=
  let ds := str_of_N n in
  replicate (w - length ds)%nat 48%N ++ ds.

(** The zeros of the Unicode decimal digits (general category Nd, Unicode
    14); the nine code points after each are the digits one to nine. *)
Definition decimal_zeros : list N :=
  [48; 1632; 1776; 1984; 2406; 2534; 2662; 2790; 2918; 3046; 3174; 3302;
   3430; 3558; 3664; 3792; 3872; 4160; 4240; 6112; 6160; 6470; 6608; 6784;
   6800; 6992; 7088; 7232; 7248; 42528; 43216; 43264; 43472; 43504; 43600;
   44016; 65296; 66720; 68912; 69734; 69872; 69942; 70096; 70384; 70736;
   70864; 71248; 71360; 71472; 71904; 72016; 72784; 73040; 73120; 92768;
   92864; 93008; 120782; 120792; 120802; 120812; 120822; 123200; 123632;
   125264; 130032]%N.

Fixpoint digit_in (zeros : list N) (c : N) : option N :=
  match zeros with
  | [] => None
  | z :: zs =>
    if ((z <=? c) && (c <? z + 10))%N then Some (c - z)%N else digit_in zs c
  end.

Definition digit_value (c : N) : option N := digit_in decimal_zeros c.

(** The longest prefix of the form digit (["_"] digit)*, as digit values, and
    what follows it. *)
Fixpoint scan_digits (s : pystr) : list N * pystr :=
  match s with
  | [] => ([], [])
  | c :: s' =>
    match digit_value c with
    | None => ([], s)
    | Some d =>
      let more :=
        match s' with
        | [] => ([], [])
        | u :: s'' =>
          if (u =? 95)%N
          then match s'' with
               | [] => ([], s')
               | c2 :: _ =>
                 match digit_value c2 with
                 | Some _ => scan_digits s''
                 | None => ([], s')
                 end
               end
          else scan_digits s'
        end in
      (d :: fst more, snd more)
    end
  end.

Definition digits_value (ds : list N) : N :=
  fold_left (fun acc d => (acc * 10 + d)%N) ds 0%N.

(** [int(s)] in base ten, for a string: [None] stands for [ValueError]. *)
Definition py_int (s : pystr) : option Z :=
  let body := strip s in
  let '(neg, rest) :=
    match body with
    | c :: r => if (c =? 45)%N then (true, r)
                else if (c =? 43)%N then (false, r) else (false, body)
    | [] => (false, [])
    end in
  match scan_digits rest with
  | (d :: ds, []) =>
    let n := Z.of_N (digits_value (d :: ds)) in
    Some (if neg then - n else n)
  | _ => None
  end.

End PyStr.

(** ** Python floats

    A [float] is an IEEE 754 binary64 value, here a [spec_float] with a 53-bit
    significand; [float(s)] rounds the decimal it reads to the nearest
    such value, ties to even. *)

Module PyFloat.
Import PyStr.

Definition prec : Z := 53.
Definition emax : Z := 1024.

Definition nan : spec_float := S754_nan.
Definition zero : spec_float := S754_zero false.

(** [x < y] and [x >= y]: both are [False] when an operand is a NaN. *)
Definition lt (x y : spec_float) : bool := SFltb x y.
Definition ge (x y : spec_float) : bool := SFleb y x.

(** The binary64 value nearest to [m * 10 ^ e10], for [m >= 0]. *)
Definition of_decimal (neg : bool) (m : N) (e10 : Z) : spec_float :=
  match m with
  | N0 => S754_zero neg
  | Npos p =>
    if 0 <=? e10
    then binary_round prec emax neg (p * Z.to_pos (10 ^ e10)) 0
    else
      let '(q, e, l) :=
        SFdiv_core_binary prec emax (Zpos p) 0 (10 ^ (- e10)) 0 in
      binary_round_aux prec emax neg q e l
  end.

(** An optional sign in front of [s]. *)
Definition take_sign (s : pystr) : bool * pystr :=
  match s with
  | c :: r => if (c =? 45)%N then (true, r)
              else if (c =? 43)%N then (false, r) else (false, s)
  | [] => (false, [])
  end.

(** The exponent part, when all of [s] is one: e or E, an optional sign, a
    digit part. *)
Definition exponent (s : pystr) : option Z :=
  match s with
  | [] => Some 0
  | c :: r =>
    if ((c =? 101) || (c =? 69))%N
    then let '(neg, r') := take_sign r in
         match scan_digits r' with
         | (d :: ds, []) =>
           let n := Z.of_N (digits_value (d :: ds)) in
           Some (if neg then - n else n)
         | _ => None
         end
    else None
  end.

(** [float(s)], for a string: [None] stands for [ValueError]. *)
Definition py_float (s : pystr) : option spec_float :=
  let '(neg, body) := take_sign (strip s) in
  let word := lower body in
  if decide (word = py "inf" ∨ word = py "infinity")
  then Some (S754_infinity neg)
  else if decide (word = py "nan") then Some S754_nan
  else
    let '(ip, r1) := scan_digits body in
    let '(fp, r2) :=
      match r1 with
      | c :: r => if (c =? 46)%N then scan_digits r else ([], r1)
      | [] => ([], [])
      end in
    match ip ++ fp with
    | [] => None
    | ds =>
      match exponent r2 with
      | Some e =>
        Some (of_decimal neg (digits_value ds) (e - Z.of_nat (length fp)))
      | None => None
      end
    end.

(** [x] is finite and its value is the rational [n / d]. *)
Definition is_ratio (x : spec_float) (n : Z) (d : positive) : Prop :=
  match x with
  | S754_zero _ => n = 0
  | S754_finite s m e =>
    let sm := if s then Zneg m else Zpos m in
    match e with
    | Zneg k => sm * Zpos d = n * 2 ^ Zpos k
    | _ => sm * 2 ^ e * Zpos d = n
    end
  | _ => False
  end.

(** The integer nearest to [n / 2 ^ k], ties to even. *)
Definition div_pow2_half_even (n : N) (k : N) : N :=
  let q := N.shiftr n k in
  let r := (n - N.shiftl q k)%N in
  let half := N.shiftl 1 (k - 1) in
  if (k =? 0)%N then n
  else match (r ?= half)%N with
       | Lt => q
       | Gt => (q + 1)%N
       | Eq => if N.even q then q else (q + 1)%N
       end.

(** [f"{x:.2f}"] *)
Definition format_2f (x : spec_float) : pystr :=
  let sign (s : bool) := if s then py "-" else [] in
  match x with
  | S754_nan => py "nan"
  | S754_infinity s => sign s ++ py "inf"
  | S754_zero s => sign s ++ py "0.00"
  | S754_finite s m e =>
    let cents :=
      match e with
      | Zneg k => div_pow2_half_even (Npos m * 100) (Npos k)
      | _ => (Npos m * 100 * 2 ^ Z.to_N e)%N
      end in
    sign s ++ str_of_N (cents / 100) ++ py "." ++ zero_pad 2 (cents mod 100)
  end.

End PyFloat.

(** ** The ledger: configuration, transactions and the command parser *)

Module Ledger.
Import PyStr PyFloat.

Definition DEFAULT_TELEGRAM_POLL_INTERVAL : Z := 5.

Definition ALLOWED_CATEGORIES : list pystr :=
  [py "餐饮"; py "交通"; py "购物"; py "住房"; py "水电燃气"; py "通讯";
   py "医疗"; py "教育"; py "娱乐"; py "旅行"; py "工资"; py "奖金";
   py "理财收益"; py "其他"].

(** [datetime.date] and [date.isoformat()] *)
Record date := { year : N; month : N; day : N }.

Definition isoformat (d : date) : pystr :=
  zero_pad 4 (year d) ++ py "-" ++ zero_pad 2 (month d) ++ py "-"
  ++ zero_pad 2 (day d).

(** What the clock answers: [date.today()] and
    [datetime.now().isoformat()]. *)
Record clock := { today : date; now_iso : pystr }.

(** The dictionary [parse_telegram_transaction] returns on success. *)
Record tx_dict := {
  tx_type : pystr;
  tx_amount : spec_float;
  tx_category : pystr;
  tx_note : pystr;
  tx_happened_on : pystr
}.

(** First component of the parser's result, when it is not [None]: the
    string "help" or a dictionary. *)
Inductive parsed :=
  | Help
  | Tx (d : tx_dict).

Definition type_map : list (pystr * pystr) :=
  [(py "expense", py "expense");
   (py "income", py "income");
   (py "add_expense", py "expense");
   (py "add_income", py "income");
   (py "支出", py "expense");
   (py "收入", py "income")].

(** [d.get(k)] *)
Fixpoint dict_get (d : list (pystr * pystr)) (k : pystr) : option pystr :=
  match d with
  | [] => None
  | (k', v) :: d' => if decide (k = k') then Some v else dict_get d' k
  end.

Definition msg_empty : pystr := py "消息为空，请发送记账命令。".
Definition msg_format_expense : pystr :=
  py "格式错误。示例：/expense 32.5 餐饮 午饭".
Definition msg_format_add : pystr :=
  py "格式错误。示例：/add 支出 32.5 餐饮 午饭".
Definition msg_unsupported : pystr :=
  py "不支持的命令。请使用 /expense 或 /income。".
Definition msg_not_number : pystr := py "金额必须是数字。".
Definition msg_negative : pystr := py "金额不能小于 0。".
Definition msg_bad_category : pystr :=
  py "分类无效。可用分类：" ++ join (py ", ") ALLOWED_CATEGORIES.

(** Lines 440 to 447: the tokens of a message. *)
Definition tokens (text : pystr) : list pystr :=
  let line := strip text in
  let normalized := if startswith_slash line then tail line else line in
  split normalized.

(** Lines 472 to 494: the type, the amount, the category and the note, from
    the command word and the tokens as they stand after the add rewrite.
    [parts[1]] and [parts[2]] are in range there: the tokens are three at
    least. *)
Definition parse_typed (today : date) (cmd : pystr) (parts : list pystr)
  : option parsed * pystr :=
  match dict_get type_map cmd with
  | None | Some [] => (None, msg_unsupported)
  | Some ty =>
    match py_float (nth 1 parts []) with
    | None => (None, msg_not_number)
    | Some amount =>
      if lt amount zero then (None, msg_negative)
      else
        let category := nth 2 parts [] in
        if decide (category ∈ ALLOWED_CATEGORIES)
        then
          let note :=
            if (3 <? length parts)%nat
            then strip (join (py " ") (drop 3 parts)) else [] in
          (Some (Tx {| tx_type := ty; tx_amount := amount;
                       tx_category := category; tx_note := note;
                       tx_happened_on := isoformat today |}), [])
        else (None, msg_bad_category)
    end
  end.

(** [parse_telegram_transaction(text)]: the pair of the parsed command, if
    any, and the error message. *)
Definition parse_telegram_transaction (today : date) (text : pystr)
  : option parsed * pystr :=
  if decide (strip text = []) then (None, msg_empty)
  else
    let parts := tokens text in
    match parts with
    | [] => (None, msg_empty)
    | p0 :: _ =>
      let cmd := lower p0 in
      if decide (cmd ∈ [py "help"; py "start"]) then (Some Help, [])
      else if (length parts <? 3)%nat then (None, msg_format_expense)
      else if decide (cmd = py "add")
      then
        if (length parts <? 4)%nat then (None, msg_format_add)
        else parse_typed today (lower (nth 1 parts [])) (tail parts)
      else parse_typed today cmd parts
    end.

(** The tokens the type, the amount, the category and the note are read
    from: all of them, or all but the first when the first is add. *)
Definition command_tokens (text : pystr) : list pystr :=
  let parts := tokens text in
  if decide (lower (hd [] parts) = py "add") then tail parts else parts.

(** *** The database and the outside world *)

(** A row of the table [transactions]; the key is its position. *)
Record row := {
  r_type : pystr;
  r_amount : spec_float;
  r_category : pystr;
  r_note : pystr;
  r_happened_on : pystr;
  r_created_at : pystr
}.

(** What the program does to the world, in the order it does it. *)
Inductive event :=
  | SetConfig (key : string) (value : pystr)
  | Insert (r : row)
  | SendMessage (token : pystr) (chat_id : Z) (text : pystr)
  | GetUpdates (token : pystr) (offset : Z)
  | Sleep (seconds : Z).

Record world := {
  config : gmap string pystr;
  transactions : list row;
  log : list event
}.

Inductive exn :=
  | IntegrityError
  | TypeError.

(** A statement either returns or raises, in a world. *)
Inductive outcome (A : Type) :=
  | Returned (a : A) (w : world)
  | Raised (e : exn) (w : world).
Arguments Returned {A} a w.
Arguments Raised {A} e w.

Definition M (A : Type) : Type := world -> outcome A.

Definition ret {A} (a : A) : M A := fun w => Returned a w.

Definition bind {A B} (m : M A) (k : A -> M B) : M B :=
  fun w =>
    match m w with
    | Returned a w' => k a w'
    | Raised e w' => Raised e w'
    end.

Definition raise {A} (e : exn) : M A := fun w => Raised e w.

Declare Scope py_scope.
Delimit Scope py_scope with py.
Notation "x <- m ;; k" := (bind m (fun x => k))
  (at level 20, m at level 99, k at level 200, only parsing) : py_scope.
Notation "m ;;; k" := (bind m (fun _ => k))
  (at level 100, k at level 200, right associativity, only parsing)
  : py_scope.
Local Open Scope py_scope.

Definition world_of {A} (o : outcome A) : world :=
  match o with
  | Returned _ w => w
  | Raised _ w => w
  end.

Definition emit (e : event) (w : world) : world :=
  {| config := config w; transactions := transactions w;
     log := log w ++ [e] |}.

(** [get_config(key, default)] *)
Definition get_config (key : string) (dflt : pystr) : M pystr :=
  fun w => Returned (default dflt (config w !! key)) w.

(** [set_config(key, value)]: insert, or overwrite by key. *)
Definition set_config (key : string) (value : pystr) : M unit :=
  fun w =>
    Returned tt
      (emit (SetConfig key value)
         {| config := <[key := value]> (config w);
            transactions := transactions w; log := log w |}).

(** The constraints of the table [transactions] (lines 59 to 68): the type
    is one of two strings, the amount is not null and [amount >= 0].  No NaN
    passes: sqlite3 binds a NaN as a null, which [NOT NULL] refuses, and as
    a number it would fail the [CHECK]. *)
Definition row_accepted (r : row) : bool :=
  bool_decide (r_type r ∈ [py "income"; py "expense"])
  && ge (r_amount r) zero.

(** [add_transaction_record(tx_type, amount, category, note, happened_on)]:
    the insertion raises when the table refuses the row. *)
Definition add_transaction_record (clk : clock)
    (ty : pystr) (amount : spec_float) (category note happened_on : pystr)
  : M unit :=
  fun w =>
    let r := {| r_type := ty; r_amount := amount; r_category := category;
                r_note := note; r_happened_on := happened_on;
                r_created_at := now_iso clk |} in
    if row_accepted r
    then Returned tt
           (emit (Insert r)
              {| config := config w; transactions := transactions w ++ [r];
                 log := log w |})
    else Raised IntegrityError w.

(** [send_telegram_message(token, chat_id, text)]: the request is made and
    a failure of it is swallowed. *)
Definition send_telegram_message (token : pystr) (chat_id : Z) (text : pystr)
  : M unit :=
  fun w => Returned tt (emit (SendMessage token chat_id text) w).

(** [time.sleep(seconds)] *)
Definition sleep (seconds : Z) : M unit :=
  fun w => Returned tt (emit (Sleep seconds) w).

(** *** Updates *)

Record chat := { chat_id : option Z }.

(** A message: its text and its chat, each of which may be missing. *)
Record message := { msg_text : option pystr; msg_chat : option chat }.

(** An update: [update_id] is [None] when the field is missing or is not an
    integer. *)
Record update := { update_id : option Z; upd_message : option message }.

Definition msg_myid (cid : Z) : pystr := py "当前 chat id: " ++ str_of_Z cid.
Definition msg_unauthorized (cid : Z) : pystr :=
  py "未授权聊天。当前 chat id: " ++ str_of_Z cid
  ++ py "，请在系统配置中绑定后再试。".
Definition msg_help : pystr :=
  py "记账命令:
/expense 金额 分类 备注
/income 金额 分类 备注
示例: /expense 32.5 餐饮 午饭".
Definition msg_recorded (d : tx_dict) : pystr :=
  let tx_text :=
    if decide (tx_type d = py "income") then py "收入" else py "支出" in
  py "已记账: " ++ tx_text ++ py " ¥" ++ format_2f (tx_amount d) ++ py " / "
  ++ tx_category d.

(** Lines 535 to 559: what the handler does with the parser's answer. *)
Definition handle_parsed (clk : clock) (token : pystr) (cid : Z)
    (res : option parsed * pystr) : M unit :=
  match res with
  | (Some Help, _) => send_telegram_message token cid msg_help
  | (_, e :: err) => send_telegram_message token cid (e :: err)
  | (Some (Tx d), []) =>
    add_transaction_record clk (tx_type d) (tx_amount d) (tx_category d)
      (tx_note d) (tx_happened_on d) ;;;
    send_telegram_message token cid (msg_recorded d)
  | (None, []) => raise TypeError
  end.

(** Lines 516 and 517: [message.get("chat", {}).get("id")] *)
Definition message_chat_id (m : message) : option Z :=
  chat_id (default {| chat_id := None |} (msg_chat m)).

(** [handle_telegram_message(token, message)] *)
Definition handle_telegram_message (clk : clock) (token : pystr)
    (m : message) : M unit :=
  let text := default [] (msg_text m) in
  match message_chat_id m with
  | None => ret tt
  | Some cid =>
    let normalized_text := lower (strip text) in
    if decide (normalized_text ∈ [py "/myid"; py "myid"])
    then send_telegram_message token cid (msg_myid cid)
    else
      allowed <- get_config "telegram_allowed_chat_id" [] ;;
      let allowed_chat_id := strip allowed in
      if decide (allowed_chat_id ≠ [] ∧ str_of_Z cid ≠ allowed_chat_id)
      then send_telegram_message token cid (msg_unauthorized cid)
      else handle_parsed clk token cid
             (parse_telegram_transaction (today clk) text)
  end.

(** *** The polling loop *)

(** What [getUpdates] answers: the request fails, the body is not JSON, or
    it is an object with its [ok] and its [result]. *)
Inductive response :=
  | RequestException
  | NotJSON
  | Json (ok : bool) (result : list update).

(** The remote end: from the token and the offset to the answer. *)
Definition api := pystr -> Z -> response.

Definition telegram_api_get (remote : api) (token : pystr) (offset : Z)
  : M response :=
  fun w => Returned (remote token offset) (emit (GetUpdates token offset) w).

Fixpoint for_each {A} (body : A -> M unit) (l : list A) : M unit :=
  match l with
  | [] => ret tt
  | x :: l' => body x ;;; for_each body l'
  end.

(** Lines 602 to 607: the body of the loop over the updates.  A message
    that is an empty object does not pass the test [if message]; handling
    it, as is done here, has no effect, since it has no chat. *)
Definition process_update (clk : clock) (token : pystr) (u : update)
  : M unit :=
  match update_id u with
  | Some id => set_config "telegram_last_update_id" (str_of_Z id)
  | None => ret tt
  end ;;;
  match upd_message u with
  | Some m => handle_telegram_message clk token m
  | None => ret tt
  end.

(** Lines 565 to 607: one turn of [while True]. *)
Definition poll_once (clk : clock) (remote : api) : M unit :=
  enabled <- get_config "telegram_enabled" (py "0") ;;
  token_raw <- get_config "telegram_bot_token" [] ;;
  let token := strip token_raw in
  if decide (enabled ≠ py "1" ∨ token = []) then sleep 3
  else
    interval_raw <- get_config "telegram_poll_interval"
                      (str_of_Z DEFAULT_TELEGRAM_POLL_INTERVAL) ;;
    let poll_interval :=
      Z.max 2 (default DEFAULT_TELEGRAM_POLL_INTERVAL (py_int interval_raw)) in
    last_raw <- get_config "telegram_last_update_id" (py "0") ;;
    let last_update_id := default 0 (py_int last_raw) in
    resp <- telegram_api_get remote token (last_update_id + 1) ;;
    match resp with
    | RequestException | NotJSON => sleep poll_interval
    | Json ok result =>
      if ok then for_each (process_update clk token) result
      else sleep poll_interval
    end.

(** [telegram_poll_loop()], for as many turns as there are answers of the
    remote end: the loop itself has no end. *)
Definition telegram_poll_loop (clk : clock) (remotes : list api) : M unit :=
  for_each (poll_once clk) remotes.

(** The cursor, as it is stored. *)
Definition cursor (w : world) : option pystr :=
  config w !! "telegram_last_update_id".

(** Lines 566 and 578 to 588: the token and the offset of the request that a
    turn started in [w] makes. *)
Definition request_token (w : world) : pystr :=
  strip (default [] (config w !! "telegram_bot_token")).

Definition request_offset (w : world) : Z :=
  default 0 (py_int (default (py "0") (cursor w))) + 1.

(** The updates of a batch carry integer ids, and these increase
    strictly. *)
Definition strictly_increasing_ids (us : list update) (ids : list Z) : Prop :=
  map update_id us = map Some ids ∧ StronglySorted Z.lt ids.

Definition maximum (ids : list Z) : option Z :=
  match ids with
  | [] => None
  | i :: ids' => Some (foldr Z.max i ids')
  end.

(** Events that leave the configuration and the transactions alone. *)
Definition is_wait (e : event) : Prop :=
  match e with
  | GetUpdates _ _ | Sleep _ => True
  | _ => False
  end.

(** Events of the message handler. *)
Definition is_handling (e : event) : Prop :=
  match e with
  | Insert _ | SendMessage _ _ _ => True
  | _ => False
  end.

(** The world after the cursor is set to [id]. *)
Definition cursor_set (id : Z) (w : world) : world :=
  emit (SetConfig "telegram_last_update_id" (str_of_Z id))
    {| config := <["telegram_last_update_id"%string := str_of_Z id]> (config w);
       transactions := transactions w; log := log w |}.

(** What a run of the handler does to a world: it appends sends and
    insertions to the log, it leaves the configuration alone, and the only
    error it raises is the table's refusal of a row. *)
Definition handler_run {A} (w : world) (o : outcome A) : Prop :=
  config (world_of o) = config w
  ∧ (∃ evs, log (world_of o) = log w ++ evs ∧ Forall is_handling evs)
  ∧ match o with
    | Returned _ _ => True
    | Raised e w' => e = IntegrityError ∧ transactions w' = transactions w
    end.

End Ledger.

(** ** The guarded start of the poller thread *)

Module Poller.

(** A [threading.Thread]: created, started and running, or ended. *)
Inductive thread_state :=
  | Created
  | Running
  | Finished.

#[global] Instance thread_state_eq_dec : EqDecision thread_state.
Proof. solve_decision. Defined.

(** Where a call of [start_telegram_poller] stands: before the lock, or
    inside [with telegram_lock] before the test, before the creation of
    the thread, before its start, before leaving, or returned. *)
Inductive pc :=
  | AtLock
  | AtCheck
  | AtCreate
  | AtStart
  | AtRelease
  | Done.

(** The threads created so far, the two globals, of which the lock names
    the call that holds it, and the calls made so far. *)
Record state := {
  threads : list thread_state;
  telegram_thread : option nat;
  telegram_lock : option nat;
  calls : list pc
}.

Definition initial : state :=
  {| threads := []; telegram_thread := None; telegram_lock := None;
     calls := [] |}.

(** One step of one call, or the end of one thread. *)
Inductive action :=
  | Call
  | Acquire (c : nat)
  | Check (c : nat)
  | Create (c : nat)
  | Start (c : nat)
  | Release (c : nat)
  | Exit (t : nat).

(** [t.is_alive()] *)
Definition is_alive (s : state) (t : nat) : bool :=
  match threads s !! t with
  | Some Running => true
  | _ => false
  end.

Definition at_pc (c : nat) (p : pc) (s : state) : state :=
  {| threads := threads s; telegram_thread := telegram_thread s;
     telegram_lock := telegram_lock s; calls := <[c := p]> (calls s) |}.

(** [step s a] is the state after [a], when [a] can be done in [s]. *)
Definition step (s : state) (a : action) : option state :=
  match a with
  | Call =>
    Some {| threads := threads s; telegram_thread := telegram_thread s;
            telegram_lock := telegram_lock s; calls := calls s ++ [AtLock] |}
  | Acquire c =>
    match calls s !! c, telegram_lock s with
    | Some AtLock, None =>
      Some {| threads := threads s; telegram_thread := telegram_thread s;
              telegram_lock := Some c; calls := <[c := AtCheck]> (calls s) |}
    | _, _ => None
    end
  | Check c =>
    match calls s !! c with
    | Some AtCheck =>
      let alive :=
        match telegram_thread s with
        | Some t => is_alive s t
        | None => false
        end in
      Some (at_pc c (if alive then AtRelease else AtCreate) s)
    | _ => None
    end
  | Create c =>
    match calls s !! c with
    | Some AtCreate =>
      Some {| threads := threads s ++ [Created];
              telegram_thread := Some (length (threads s));
              telegram_lock := telegram_lock s;
              calls := <[c := AtStart]> (calls s) |}
    | _ => None
    end
  | Start c =>
    match calls s !! c, telegram_thread s with
    | Some AtStart, Some t =>
      Some {| threads := <[t := Running]> (threads s);
              telegram_thread := telegram_thread s;
              telegram_lock := telegram_lock s;
              calls := <[c := AtRelease]> (calls s) |}
    | _, _ => None
    end
  | Release c =>
    match calls s !! c with
    | Some AtRelease =>
      Some {| threads := threads s; telegram_thread := telegram_thread s;
              telegram_lock := None; calls := <[c := Done]> (calls s) |}
    | _ => None
    end
  | Exit t =>
    match threads s !! t with
    | Some Running =>
      Some {| threads := <[t := Finished]> (threads s);
              telegram_thread := telegram_thread s;
              telegram_lock := telegram_lock s; calls := calls s |}
    | _ => None
    end
  end.

(** A schedule, from a state. *)
Fixpoint run (s : state) (acts : list action) : option state :=
  match acts with
  | [] => Some s
  | a :: acts' =>
    match step s a with
    | Some s' => run s' acts'
    | None => None
    end
  end.

(** The poller threads that are running. *)
Definition running (s : state) : list thread_state :=
  filter (fun st => st = Running) (threads s).

(** The steps of one call of [start_telegram_poller()] that finds no live
    thread, and of one that finds one, in a row. *)
Definition starting_call (c : nat) : list action :=
  [Acquire c; Check c; Create c; Start c; Release c].

Definition returning_call (c : nat) : list action :=
  [Acquire c; Check c; Release c].

(** [start_telegram_poller()], called in [s] and run to its return with no
    other step in between; [None] when the lock is held by another call,
    for which this one would wait. *)
Definition start_telegram_poller (s : state) : option state :=
  let c := length (calls s) in
  match run s [Call; Acquire c; Check c] with
  | Some s1 =>
    match calls s1 !! c with
    | Some AtCreate => run s1 [Create c; Start c; Release c]
    | _ => run s1 [Release c]
    end
  | None => None
  end.

(** A call is inside [with telegram_lock]. *)
Definition in_critical (p : pc) : Prop :=
  match p with
  | AtCheck | AtCreate | AtStart | AtRelease => True
  | AtLock | Done => False
  end.

(** What holds in every state: a call inside the [with] block holds the
    lock, a running thread is the one [telegram_thread] names, and no
    thread is running while a call is between the test and the start. *)
Record invariant (s : state) : Prop := {
  inv_lock : ∀ c p, calls s !! c = Some p -> in_critical p ->
                    telegram_lock s = Some c;
  inv_current : ∀ t, threads s !! t = Some Running ->
                     telegram_thread s = Some t;
  inv_starting : ∀ c, calls s !! c = Some AtCreate
                      ∨ calls s !! c = Some AtStart ->
                      ∀ t, threads s !! t ≠ Some Running
}.

End Poller.

(** ** Sample values *)

Module Samples.
Import PyStr PyFloat Ledger.

Definition a_day : date := {| year := 2024; month := 3; day := 7 |}.

Definition a_clock : clock :=
  {| today := a_day; now_iso := py "2024-03-07T09:30:00" |}.

Definition a_chat (cid : Z) : option chat := Some {| chat_id := Some cid |}.

(** A message with an expense of 12. *)
Definition expense_message (cid : Z) : message :=
  {| msg_text := Some (py "/expense 12 交通"); msg_chat := a_chat cid |}.

(** A world whose only setting is the allowed chat id. *)
Definition world_allowing (allowed : pystr) : world :=
  {| config := {[ "telegram_allowed_chat_id"%string := allowed ]};
     transactions := []; log := [] |}.

(** A world in which the poller is enabled, with a token, every chat being
    allowed. *)
Definition polling_world : world :=
  {| config := <["telegram_enabled"%string := py "1"]>
                 (<["telegram_bot_token"%string := py "T"]> ∅);
     transactions := []; log := [] |}.

(** Two updates from the chat 5: an expense whose amount is written nan,
    then an expense of 12. *)
Definition nan_batch : list update :=
  [{| update_id := Some 1;
      upd_message := Some {| msg_text := Some (py "/expense nan 餐饮");
                             msg_chat := a_chat 5 |} |};
   {| update_id := Some 2; upd_message := Some (expense_message 5) |}].

End Samples.

(** ** Two claims as they are written *)

Module AsWritten.
Import PyStr PyFloat Ledger.

(** The claim C6 as it is written: an unrecognised first token always gives
    the error "unsupported command". *)
Definition unsupported_claim : Prop :=
  ∀ (today : date) (text p0 : pystr) (rest : list pystr),
    strip text ≠ [] ->
    tokens text = p0 :: rest ->
    lower p0 ∉ [py "help"; py "start"; py "add"] ->
    dict_get type_map (lower p0) = None ->
    parse_telegram_transaction today text = (None, msg_unsupported).

(** The claim C4 as it is written: the chat id is compared with the
    configured value as it is stored. *)
Definition allow_list_claim : Prop :=
  ∀ (clk : clock) (token : pystr) (m : message) (cid : Z) (w : world),
    message_chat_id m = Some cid ->
    lower (strip (default [] (msg_text m))) ∉ [py "/myid"; py "myid"] ->
    let configured := default [] (config w !! "telegram_allowed_chat_id") in
    (configured = [] ∨ str_of_Z cid = configured ->
     handle_telegram_message clk token m w
     = handle_parsed clk token cid
         (parse_telegram_transaction (today clk) (default [] (msg_text m))) w)
    ∧ (configured ≠ [] ∧ str_of_Z cid ≠ configured ->
       handle_telegram_message clk token m w
       = Returned tt (emit (SendMessage token cid (msg_unauthorized cid)) w)).

End AsWritten.

(** ** Dates read from strings *)

Module PyTime.
Import PyStr.

Definition is_leap (y : N) : bool :=
  ((y mod 4 =? 0) && negb (y mod 100 =? 0) || (y mod 400 =? 0))%N.

Definition days_in_month (y m : N) : N :=
  match m with
  | 2 => if is_leap y then 29 else 28
  | 4 | 6 | 9 | 11 => 30
  | _ => 31
  end%N.

(** An ASCII digit between [lo] and [hi]. *)
Definition between (lo hi c : N) : bool := ((lo <=? c) && (c <=? hi))%N.

(** [%Y]: four decimal digits, of any script. *)
Definition match_year (s : pystr) : option (N * pystr) :=
  match s with
  | a :: b :: c :: d :: r =>
    match digit_value a, digit_value b, digit_value c, digit_value d with
    | Some x, Some y, Some z, Some t =>
      Some (x * 1000 + y * 100 + z * 10 + t, r)%N
    | _, _, _, _ => None
    end
  | _ => None
  end.

(** [%m]: the alternatives 1[0-2], 0[1-9] and [1-9] that match at the head
    of [s], in the order in which they are tried, each with its value and
    what follows it. *)
Definition month_candidates (s : pystr) : list (N * pystr) :=
  match s with
  | c1 :: c2 :: r =>
    (if (c1 =? 49)%N && between 48 50 c2 then [(10 + (c2 - 48), r)%N] else [])
    ++ (if (c1 =? 48)%N && between 49 57 c2 then [((c2 - 48)%N, r)] else [])
    ++ (if between 49 57 c1 then [((c1 - 48)%N, c2 :: r)] else [])
  | [c1] => if between 49 57 c1 then [((c1 - 48)%N, [])] else []
  | [] => []
  end.

(** [%d]: the alternatives 3[0-1], [1-2]\d, 0[1-9], [1-9] and a space
    followed by [1-9]. *)
Definition day_candidates (s : pystr) : list (N * pystr) :=
  match s with
  | c1 :: c2 :: r =>
    (if (c1 =? 51)%N && between 48 49 c2 then [(30 + (c2 - 48), r)%N] else [])
    ++ (if between 49 50 c1
        then match digit_value c2 with
             | Some v => [((c1 - 48) * 10 + v, r)%N]
             | None => []
             end
        else [])
    ++ (if (c1 =? 48)%N && between 49 57 c2 then [((c2 - 48)%N, r)] else [])
    ++ (if between 49 57 c1 then [((c1 - 48)%N, c2 :: r)] else [])
    ++ (if (c1 =? 32)%N && between 49 57 c2 then [((c2 - 48)%N, r)] else [])
  | [c1] => if between 49 57 c1 then [((c1 - 48)%N, [])] else []
  | [] => []
  end.

(** The first alternative after which [rest] matches. *)
Fixpoint first_match {A B} (rest : A -> option B) (l : list A) : option B :=
  match l with
  | [] => None
  | x :: l' =>
    match rest x with
    | Some y => Some y
    | None => first_match rest l'
    end
  end.

(** A date of the calendar, from the year 1 on. *)
Definition valid_date (y m d : N) : bool :=
  ((1 <=? y) && (1 <=? d) && (d <=? days_in_month y m))%N.

(** [%m-%d] at the head of [s]: the first alternative for the month after
    which a dash and a day match, with what follows the day. *)
Definition match_month_day (s : pystr) : option (N * N * pystr) :=
  first_match
    (fun mr : N * pystr =>
       match snd mr with
       | dash2 :: r2 =>
         if (dash2 =? 45)%N
         then match day_candidates r2 with
              | (d, r3) :: _ => Some (fst mr, d, r3)
              | [] => None
              end
         else None
       | [] => None
       end)
    (month_candidates s).

(** [datetime.strptime(s, "%Y-%m-%d")]: the year, the month and the day;
    [None] stands for [ValueError]. *)
Definition strptime_ymd (s : pystr) : option (N * N * N) :=
  match match_year s with
  | Some (y, dash1 :: r1) =>
    if (dash1 =? 45)%N
    then
      match match_month_day r1 with
      | Some (m, d, []) => if valid_date y m d then Some (y, m, d) else None
      | _ => None
      end
    else None
  | _ => None
  end.

(** A date that [datetime.date] can hold. *)
Definition is_date (y m d : N) : bool :=
  ((1 <=? y) && (y <=? 9999) && (1 <=? m) && (m <=? 12) && (1 <=? d)
   && (d <=? days_in_month y m))%N.

End PyTime.

(** ** The web side: the session, the settings and the transaction form *)

Module Web.
Import PyStr PyFloat Ledger PyTime.

Local Open Scope py_scope.

Definition DEFAULT_PASSWORD : pystr := py "P@ssw0rd".

(** The two variables of the environment that the program reads. *)
Record environ := {
  APP_PASSWORD : option pystr;
  APP_PASSWORD_HASH : option pystr
}.

(** A submitted form, and [request.form.get(key, "")]. *)
Definition field (form : gmap string pystr) (key : string) : pystr :=
  default [] (form !! key).

Inductive endpoint :=
  | EpLogin
  | EpIndex
  | EpSettings.

(** The settings page: the values handed to the template. *)
Record settings_page := {
  page_enabled : bool;
  page_bot_token : pystr;
  page_allowed_chat_id : pystr
}.

(** What a view answers: a redirection, with the message flashed if any, the
    login page, with the message flashed if any, or the settings page. *)
Inductive reply :=
  | Redirect (target : endpoint) (flashed : option pystr)
  | LoginPage (flashed : option pystr)
  | SettingsPage (p : settings_page).

(** A view: from the flag [authenticated] of the session to what it
    answers and the flag afterwards. *)
Definition view : Type := bool -> M (reply * bool).

Section Password.

(** [werkzeug.security.check_password_hash(pwhash, password)] *)
Variable check_password_hash : pystr -> pystr -> bool.

Variable env : environ.

(** [is_password_valid(raw_password)] *)
Definition is_password_valid (raw_password : pystr) : bool :=
  let env_password := default DEFAULT_PASSWORD (APP_PASSWORD env) in
  match APP_PASSWORD_HASH env with
  | Some (c :: h) => check_password_hash (c :: h) raw_password
  | _ => bool_decide (raw_password = env_password)
  end.

(** [login()], on a POST with the form's password, if it has one. *)
Definition login_post (password : option pystr) : view :=
  fun authenticated =>
    if is_password_valid (default [] password)
    then ret (Redirect EpIndex None, true)
    else ret (LoginPage (Some (py "密码错误，请重试。")), authenticated).

End Password.

(** [login()], on a GET. *)
Definition login_get : view :=
  fun authenticated => ret (LoginPage None, authenticated).

(** [logout()]: the session is cleared. *)
Definition logout : view :=
  fun _ => ret (Redirect EpLogin None, false).

(** [login_required(view)] *)
Definition login_required (v : view) : view :=
  fun authenticated =>
    if authenticated then v authenticated
    else ret (Redirect EpLogin None, authenticated).

(** [settings()], on a POST; the form's check box is on when its value
    is "on". *)
Definition settings_post (form : gmap string pystr) : view :=
  login_required (fun authenticated =>
    let enabled :=
      if decide (form !! "telegram_enabled" = Some (py "on"))
      then py "1" else py "0" in
    let bot_token := strip (field form "telegram_bot_token") in
    let allowed_chat_id := strip (field form "telegram_allowed_chat_id") in
    set_config "telegram_enabled" enabled ;;;
    set_config "telegram_bot_token" bot_token ;;;
    set_config "telegram_allowed_chat_id" allowed_chat_id ;;;
    ret (Redirect EpSettings (Some (py "配置已保存。")), authenticated)).

(** [settings()], on a GET. *)
Definition settings_get : view :=
  login_required (fun authenticated =>
    enabled <- get_config "telegram_enabled" (py "0") ;;
    bot_token <- get_config "telegram_bot_token" [] ;;
    allowed <- get_config "telegram_allowed_chat_id" [] ;;
    ret (SettingsPage {| page_enabled := bool_decide (enabled = py "1");
                         page_bot_token := bot_token;
                         page_allowed_chat_id := allowed |},
         authenticated)).

(** [add_transaction()]: the checks of the form in their order, then the
    insertion. *)
Definition add_transaction (clk : clock) (form : gmap string pystr) : view :=
  login_required (fun authenticated =>
    let tx_type := strip (field form "type") in
    let category := strip (field form "category") in
    let note := strip (field form "note") in
    let happened_on := strip (field form "happened_on") in
    let amount_raw := strip (field form "amount") in
    let refuse (msg : pystr) : M (reply * bool) :=
      ret (Redirect EpIndex (Some msg), authenticated) in
    match py_float amount_raw with
    | None => refuse (py "金额必须是数字。")
    | Some amount =>
      if decide (tx_type ∉ [py "income"; py "expense"])
      then refuse (py "收支类型不合法。")
      else if lt amount zero then refuse (py "金额不能小于 0。")
      else if decide (category = []) then refuse (py "分类不能为空。")
      else if decide (category ∉ ALLOWED_CATEGORIES)
      then refuse (py "分类不在可选范围内。")
      else
        match strptime_ymd happened_on with
        | None => refuse (py "日期格式错误。")
        | Some _ =>
          add_transaction_record clk tx_type amount category note
            happened_on ;;;
          ret (Redirect EpIndex None, authenticated)
        end
    end).

(** Lines 619 to 622: when the program starts, the polling interval gets its
    default if it has no value, or an empty one. *)
Definition startup : M unit :=
  interval <- get_config "telegram_poll_interval" [] ;;
  if decide (interval = [])
  then set_config "telegram_poll_interval"
         (str_of_Z DEFAULT_TELEGRAM_POLL_INTERVAL)
  else ret tt.

(** A request to one of the views above. *)
Inductive request :=
  | GetLogin
  | PostLogin (password : option pystr)
  | PostLogout
  | GetSettings
  | PostSettings (form : gmap string pystr)
  | PostTransaction (form : gmap string pystr).

Definition serve (check : pystr -> pystr -> bool) (env : environ)
    (clk : clock) (r : request) : view :=
  match r with
  | GetLogin => login_get
  | PostLogin password => login_post check env password
  | PostLogout => logout
  | GetSettings => settings_get
  | PostSettings form => settings_post form
  | PostTransaction form => add_transaction clk form
  end.

(** The requests of one browser, one after the other; a request that
    raises ends with the error, and the next one is served in the world
    and the session as they are then.  The answers are dropped. *)
Fixpoint serve_all (check : pystr -> pystr -> bool) (env : environ)
    (clk : clock) (rs : list request) (authenticated : bool) (w : world)
  : bool * world :=
  match rs with
  | [] => (authenticated, w)
  | r :: rs' =>
    match serve check env clk r authenticated w with
    | Returned (_, a') w' => serve_all check env clk rs' a' w'
    | Raised _ w' => serve_all check env clk rs' authenticated w'
    end
  end.

End Web.

(** ** Notions used in the statements *)

Module Notions.
Import PyStr PyFloat Ledger Samples PyTime Web.

Fixpoint uint_values (d : Decimal.uint) : list N :=
  match d with
  | Decimal.Nil => []
  | Decimal.D0 d' => 0%N :: uint_values d'
  | Decimal.D1 d' => 1%N :: uint_values d'
  | Decimal.D2 d' => 2%N :: uint_values d'
  | Decimal.D3 d' => 3%N :: uint_values d'
  | Decimal.D4 d' => 4%N :: uint_values d'
  | Decimal.D5 d' => 5%N :: uint_values d'
  | Decimal.D6 d' => 6%N :: uint_values d'
  | Decimal.D7 d' => 7%N :: uint_values d'
  | Decimal.D8 d' => 8%N :: uint_values d'
  | Decimal.D9 d' => 9%N :: uint_values d'
  end.

(** A string of ASCII digits. *)
Definition ascii_digits (s : pystr) : Prop :=
  Forall (fun c => (48 <= c <= 57)%N) s.

(** The messages the parser answers with. *)
Definition parse_errors : list pystr :=
  [msg_empty; msg_format_expense; msg_format_add; msg_unsupported;
   msg_not_number; msg_negative; msg_bad_category].

(** The three ways in which the parser answers. *)
Definition well_shaped (p : option parsed * pystr) : Prop :=
  p = (Some Help, [])
  ∨ (∃ d, p = (Some (Tx d), []))
  ∨ (∃ err, p = (None, err) ∧ err ∈ parse_errors).

(** What the parser requires of the command tokens to return the
    transaction [d]. *)
Definition accepted (today : date) (toks : list pystr) (d : tx_dict) : Prop :=
  (3 <= length toks)%nat
  ∧ dict_get type_map (lower (hd [] toks)) = Some (tx_type d)
  ∧ py_float (nth 1 toks []) = Some (tx_amount d)
  ∧ lt (tx_amount d) zero = false
  ∧ tx_category d = nth 2 toks []
  ∧ tx_category d ∈ ALLOWED_CATEGORIES
  ∧ tx_note d = join (py " ") (drop 3 toks)
  ∧ tx_happened_on d = isoformat today.

(** The test of line 527 in the world [w], for the chat [cid]. *)
Definition chat_denied (w : world) (cid : Z) : Prop :=
  let allowed_chat_id :=
    strip (default [] (config w !! "telegram_allowed_chat_id")) in
  allowed_chat_id ≠ [] ∧ str_of_Z cid ≠ allowed_chat_id.

(** The message is the request for the chat id. *)
Definition asks_id (m : message) : Prop :=
  lower (strip (default [] (msg_text m))) ∈ [py "/myid"; py "myid"].

(** The row inserted for a parsed transaction. *)
Definition row_of (clk : clock) (d : tx_dict) : row :=
  {| r_type := tx_type d; r_amount := tx_amount d;
     r_category := tx_category d; r_note := tx_note d;
     r_happened_on := tx_happened_on d; r_created_at := now_iso clk |}.

(** The world after a row is inserted. *)
Definition inserted (r : row) (w : world) : world :=
  emit (Insert r)
    {| config := config w; transactions := transactions w ++ [r];
       log := log w |}.

(** What a run of the handler for the chat [cid] comes to. *)
Definition handled (token : pystr) (cid : Z) (w : world)
    (o : outcome unit) : Prop :=
  match o with
  | Returned _ w' =>
    (∃ text, w' = emit (SendMessage token cid text) w)
    ∨ (∃ r text, row_accepted r = true
                 ∧ w' = emit (SendMessage token cid text) (inserted r w))
  | Raised e w' => e = IntegrityError ∧ w' = w
  end.

(** The test of line 567 passes: the poller is switched on and has a
    token. *)
Definition polling_enabled (w : world) : Prop :=
  default (py "0") (config w !! "telegram_enabled") = py "1"
  ∧ request_token w ≠ [].

(** Lines 572 to 575: the seconds to wait after a fetch that failed. *)
Definition poll_interval (w : world) : Z :=
  Z.max 2
    (default DEFAULT_TELEGRAM_POLL_INTERVAL
       (py_int (default (str_of_Z DEFAULT_TELEGRAM_POLL_INTERVAL)
                  (config w !! "telegram_poll_interval")))).

(** The world after the request of a turn started in [w]. *)
Definition requested (w : world) : world :=
  emit (GetUpdates (request_token w) (request_offset w)) w.


(** What the loop may do to a world: add rows at the end of the table,
    write the cursor and no other setting, add events to the log. *)
Definition engine_run (w w' : world) : Prop :=
  (∃ rows, transactions w' = transactions w ++ rows)
  ∧ (∀ k : string, k ≠ "telegram_last_update_id"%string ->
       config w' !! k = config w !! k)
  ∧ (∃ evs, log w' = log w ++ evs).

(** A batch of one update, with the id 7, from the chat 5. *)
Definition one_update : list update :=
  [{| update_id := Some 7; upd_message := Some (expense_message 5) |}].

(** A request that does not log in: any request but a login with a valid
    password. *)
Definition no_valid_login (check : pystr -> pystr -> bool) (env : environ)
    (r : request) : Prop :=
  match r with
  | PostLogin password =>
    is_password_valid check env (default [] password) = false
  | _ => True
  end.

(** An environment without either variable, and a form that asks for
    everything at once. *)
Definition bare_environ : environ :=
  {| APP_PASSWORD := None; APP_PASSWORD_HASH := None |}.

Definition a_form : gmap string pystr :=
  <["telegram_enabled"%string := py "on"]>
    (<["telegram_bot_token"%string := py " T "]>
       (<["telegram_allowed_chat_id"%string := py " 5 "]>
          (<["type"%string := py "expense"]>
             (<["amount"%string := py " 12.5"]>
                (<["category"%string := py "餐饮"]>
                   (<["happened_on"%string := py "2024-03-07"]> ∅)))))).

(** The world after the settings form is saved by a session that is logged
    in. *)
Definition saved (form : gmap string pystr) (w : world) : world :=
  world_of (settings_post form true w).

(** The messages the transaction form is refused with. *)
Definition form_errors : list pystr :=
  [py "金额必须是数字。"; py "收支类型不合法。"; py "金额不能小于 0。";
   py "分类不能为空。"; py "分类不在可选范围内。"; py "日期格式错误。"].

(** The row the transaction form asks for, once its amount is read. *)
Definition form_row (clk : clock) (form : gmap string pystr)
    (amount : spec_float) : row :=
  {| r_type := strip (field form "type"); r_amount := amount;
     r_category := strip (field form "category");
     r_note := strip (field form "note");
     r_happened_on := strip (field form "happened_on");
     r_created_at := now_iso clk |}.

(** The form passes the checks of lines 334 to 356, its amount being
    read as [amount]. *)
Definition form_ok (form : gmap string pystr) (amount : spec_float) : Prop :=
  py_float (strip (field form "amount")) = Some amount
  ∧ strip (field form "type") ∈ [py "income"; py "expense"]
  ∧ lt amount zero = false
  ∧ strip (field form "category") ∈ ALLOWED_CATEGORIES
  ∧ is_Some (strptime_ymd (strip (field form "happened_on"))).

End Notions.

Module PollerNotions.
Import Poller.

(** The lock is held only by a call inside the [with] block, and a call
    that is about to start a thread has one that was never started. *)
Record holding (s : state) : Prop := {
  hold_lock : ∀ c, telegram_lock s = Some c ->
                   ∃ p, calls s !! c = Some p ∧ in_critical p;
  hold_start : ∀ c, calls s !! c = Some AtStart ->
                    ∃ t, telegram_thread s = Some t
                         ∧ threads s !! t = Some Created
}.

(** The steps a call has at most before it returns. *)
Definition remaining (p : pc) : nat :=
  match p with
  | AtLock => 5
  | AtCheck => 4
  | AtCreate => 3
  | AtStart => 2
  | AtRelease => 1
  | Done => 0
  end.

Definition work (s : state) : nat := sum_list (remaining <$> calls s).

(** The step of a call, not a new call or the end of a thread. *)
Definition call_step (a : action) : Prop :=
  match a with
  | Call | Exit _ => False
  | _ => True
  end.

(** Two calls, the first of which is between the creation and the start of
    the thread when the second arrives. *)
Definition two_calls : list action :=
  [Call; Acquire 0; Check 0; Create 0; Call].

End PollerNotions.

(** ** Facts about strings *)

Module PyStrFacts.
Import PyStr.

Lemma split_from_tokens (s tok : pystr) :
  Forall (fun c => isspace c = false) tok ->
  Forall is_token (split_from tok s).
Proof.
  revert tok. induction s as [|c s IH]; intros tok Htok; simpl.
  - destruct tok as [|t tok']; constructor; [|constructor].
    split; [discriminate | exact Htok].
  - destruct (isspace c) eqn:Hc.
    + destruct tok as [|t tok'].
      * apply IH. constructor.
      * constructor.
        -- split; [discriminate | exact Htok].
        -- apply IH. constructor.
    + apply IH. apply Forall_app. split; [exact Htok|].
      constructor; [exact Hc | constructor].
Qed.

Lemma split_tokens (s : pystr) : Forall is_token (split s).
Proof. apply split_from_tokens. constructor. Qed.

Lemma rstrip_app (a b : pystr) :
  rstrip b ≠ [] -> rstrip (a ++ b) = a ++ rstrip b.
Proof.
  intros Hb. induction a as [|c a IH]; simpl; [reflexivity|].
  rewrite IH. destruct (a ++ rstrip b) eqn:E; [|reflexivity].
  apply app_eq_nil in E. destruct E as [_ E]. contradiction.
Qed.

Lemma rstrip_token (t : pystr) : is_token t -> rstrip t = t.
Proof.
  intros [Hne Hws]. clear Hne.
  induction Hws as [|c t Hc Hws IH]; simpl; [reflexivity|].
  rewrite IH, Hc. destruct t; reflexivity.
Qed.

Lemma lstrip_token_app (t s : pystr) : is_token t -> lstrip (t ++ s) = t ++ s.
Proof.
  intros [Hne Hws]. destruct Hws as [|c t Hc Hws]; [contradiction|].
  simpl. rewrite Hc. reflexivity.
Qed.

Lemma join_cons_cons (sep x y : pystr) (l : list pystr) :
  join sep (x :: y :: l) = x ++ sep ++ join sep (y :: l).
Proof. reflexivity. Qed.

Lemma join_tokens_nonempty (sep t : pystr) (l : list pystr) :
  is_token t -> join sep (t :: l) ≠ [].
Proof.
  intros [Hne _]. destruct l; simpl; [exact Hne|].
  intros E. apply app_eq_nil in E. destruct E as [E _]. contradiction.
Qed.

(** Joining tokens yields a string that [strip] leaves as it is. *)
Lemma strip_join_tokens (sep : pystr) (l : list pystr) :
  Forall is_token l -> strip (join sep l) = join sep l.
Proof.
  intros Hl. unfold strip.
  destruct Hl as [|t l Ht Hl]; [reflexivity|].
  assert (Hls : lstrip (join sep (t :: l)) = join sep (t :: l)).
  { destruct l as [|y l'].
    - simpl. rewrite <- (app_nil_r t) at 1 2. by apply lstrip_token_app.
    - rewrite join_cons_cons. by apply lstrip_token_app. }
  rewrite Hls. clear Hls.
  revert t Ht. induction Hl as [|y l Hy Hl IH]; intros t Ht.
  - simpl. by apply rstrip_token.
  - rewrite join_cons_cons. rewrite app_assoc.
    rewrite rstrip_app; rewrite (IH y Hy); [reflexivity|].
    by apply join_tokens_nonempty.
Qed.

Lemma strip_nil_split (s : pystr) : lstrip s = [] -> split s = [].
Proof.
  unfold split. induction s as [|c s IH]; simpl; [reflexivity|].
  destruct (isspace c); [exact IH | discriminate].
Qed.

Lemma Forall_drop_tokens (n : nat) (l : list pystr) :
  Forall is_token l -> Forall is_token (drop n l).
Proof. apply Forall_drop. Qed.

Lemma Forall_tail_tokens (l : list pystr) :
  Forall is_token l -> Forall is_token (tail l).
Proof. intros H. destruct H; [constructor | assumption]. Qed.

End PyStrFacts.

(** ** The command parser *)

Module ParserFacts.
Import PyStr PyFloat Ledger Samples AsWritten PyStrFacts.

Lemma tokens_are_tokens (text : pystr) : Forall is_token (tokens text).
Proof. apply split_tokens. Qed.

Lemma tokens_cons_strip (text p0 : pystr) (rest : list pystr) :
  tokens text = p0 :: rest -> strip text ≠ [].
Proof.
  unfold tokens. intros Ht Hs. rewrite Hs in Ht. discriminate Ht.
Qed.

Lemma dict_get_Some (d : list (pystr * pystr)) (k v : pystr) :
  dict_get d k = Some v -> (k, v) ∈ d.
Proof.
  induction d as [|[k' v'] d IH]; simpl; [discriminate|].
  destruct (decide (k = k')) as [->|Hne].
  - intros [= ->]. apply list_elem_of_here.
  - intros H. apply list_elem_of_further. by apply IH.
Qed.

Lemma type_map_entry (cmd ty : pystr) :
  dict_get type_map cmd = Some ty ->
  ty ∈ [py "income"; py "expense"]
  ∧ cmd ∈ [py "expense"; py "income"; py "add_expense"; py "add_income";
           py "支出"; py "收入"].
Proof.
  intros H. apply dict_get_Some in H. unfold type_map in H.
  repeat (apply elem_of_cons in H; destruct H as [H|H];
          [injection H as -> ->; split;
           repeat first [apply list_elem_of_here | apply list_elem_of_further]|]).
  apply elem_of_nil in H. destruct H.
Qed.

Lemma type_map_key_not_keyword (cmd ty : pystr) :
  dict_get type_map cmd = Some ty ->
  (cmd ∉ [py "help"; py "start"]) ∧ cmd ≠ py "add".
Proof.
  intros H. apply type_map_entry in H. destruct H as [_ H].
  repeat (apply elem_of_cons in H; destruct H as [->|H];
          [split; [intros Hin; vm_compute in Hin;
                   repeat (apply elem_of_cons in Hin;
                           destruct Hin as [Hin|Hin]; [discriminate Hin|]);
                   apply elem_of_nil in Hin; destruct Hin
                  | vm_compute; discriminate]|]).
  apply elem_of_nil in H. destruct H.
Qed.

(** What a successful [parse_typed] returns. *)
Lemma parse_typed_Tx (today : date) (cmd : pystr) (parts : list pystr)
    (d : tx_dict) (err : pystr) :
  parse_typed today cmd parts = (Some (Tx d), err) ->
  err = []
  ∧ dict_get type_map cmd = Some (tx_type d)
  ∧ py_float (nth 1 parts []) = Some (tx_amount d)
  ∧ lt (tx_amount d) zero = false
  ∧ tx_category d = nth 2 parts []
  ∧ tx_category d ∈ ALLOWED_CATEGORIES
  ∧ tx_note d = (if (3 <? length parts)%nat
                 then strip (join (py " ") (drop 3 parts)) else [])
  ∧ tx_happened_on d = isoformat today.
Proof.
  unfold parse_typed.
  destruct (dict_get type_map cmd) as [[|c ty]|] eqn:Hty; try discriminate.
  destruct (py_float (nth 1 parts [])) as [amount|] eqn:Hf; try discriminate.
  destruct (lt amount zero) eqn:Hlt; try discriminate.
  destruct (decide (nth 2 parts [] ∈ ALLOWED_CATEGORIES)) as [Hin|Hout];
    try discriminate.
  intros [= <- <-]. simpl. auto 10.
Qed.

Lemma parse_typed_not_Help (today : date) (cmd : pystr) (parts : list pystr)
    (err : pystr) :
  parse_typed today cmd parts ≠ (Some Help, err).
Proof.
  unfold parse_typed.
  destruct (dict_get type_map cmd) as [[|c ty]|]; try discriminate.
  destruct (py_float (nth 1 parts [])) as [amount|]; try discriminate.
  destruct (lt amount zero); try discriminate.
  destruct (decide (nth 2 parts [] ∈ ALLOWED_CATEGORIES)); discriminate.
Qed.

(** A successful parse is [parse_typed] on the command tokens, which are
    three at least. *)
Lemma parse_Tx_typed (today : date) (text : pystr) (d : tx_dict)
    (err : pystr) :
  parse_telegram_transaction today text = (Some (Tx d), err) ->
  (3 <= length (command_tokens text))%nat
  ∧ parse_typed today (lower (hd [] (command_tokens text)))
      (command_tokens text) = (Some (Tx d), err).
Proof.
  unfold parse_telegram_transaction, command_tokens.
  destruct (decide (strip text = [])); [discriminate|].
  destruct (tokens text) as [|p0 rest] eqn:Htok; [discriminate|].
  cbn [hd].
  destruct (decide (lower p0 ∈ [py "help"; py "start"])); [discriminate|].
  destruct (length (p0 :: rest) <? 3)%nat eqn:H3; [discriminate|].
  apply Nat.ltb_ge in H3.
  destruct (decide (lower p0 = py "add")) as [Hadd|Hadd].
  - destruct (length (p0 :: rest) <? 4)%nat eqn:H4; [discriminate|].
    apply Nat.ltb_ge in H4. cbn [tail].
    destruct rest as [|t rest']; [simpl in H4; lia|].
    cbn [nth hd]. intros H. split; [simpl in *; lia | exact H].
  - intros H. split; [exact H3 | exact H].
Qed.

(** Every successful parse: the type is one of two, the amount is not below
    zero, the category is an allowed one, of which there are fourteen, and
    the date is the clock's. *)
Lemma parse_success_fields (today : date) (text : pystr) (d : tx_dict)
    (err : pystr) :
  parse_telegram_transaction today text = (Some (Tx d), err) ->
  err = []
  ∧ tx_type d ∈ [py "income"; py "expense"]
  ∧ lt (tx_amount d) zero = false
  ∧ tx_category d ∈ ALLOWED_CATEGORIES
  ∧ length ALLOWED_CATEGORIES = 14%nat
  ∧ tx_happened_on d = isoformat today.
Proof.
  intros H. apply parse_Tx_typed in H. destruct H as [_ H].
  apply parse_typed_Tx in H.
  destruct H as (He & Hty & _ & Hlt & _ & Hcat & _ & Hdate).
  apply type_map_entry in Hty. destruct Hty as [Hty _].
  repeat split; assumption || reflexivity.
Qed.

(** An amount that is not below zero is at least zero, unless it is a NaN. *)
Lemma not_lt_zero_ge (x : spec_float) :
  lt x zero = false -> x ≠ nan -> ge x zero = true.
Proof.
  destruct x as [s|s| |s m e]; try destruct s; vm_compute; congruence.
Qed.

Lemma parse_add_typed (today : date) (text a t : pystr) (rest : list pystr) :
  tokens text = a :: t :: rest ->
  lower a = py "add" ->
  (2 <= length rest)%nat ->
  parse_telegram_transaction today text
  = parse_typed today (lower t) (t :: rest).
Proof.
  intros Htok Ha Hlen. unfold parse_telegram_transaction.
  destruct (decide (strip text = [])) as [Hs|_].
  { by apply tokens_cons_strip in Htok. }
  rewrite Htok, Ha.
  destruct (decide (py "add" ∈ [py "help"; py "start"])) as [Hin|_].
  { vm_compute in Hin.
    repeat (apply elem_of_cons in Hin; destruct Hin as [Hin|Hin];
            [discriminate Hin|]).
    apply elem_of_nil in Hin. destruct Hin. }
  destruct (length (a :: t :: rest) <? 3)%nat eqn:H3.
  { apply Nat.ltb_lt in H3. simpl in H3. lia. }
  destruct (decide (py "add" = py "add")) as [_|Hne]; [|by destruct Hne].
  destruct (length (a :: t :: rest) <? 4)%nat eqn:H4.
  { apply Nat.ltb_lt in H4. simpl in H4. lia. }
  reflexivity.
Qed.

Lemma parse_direct_typed (today : date) (text t ty : pystr)
    (rest : list pystr) :
  tokens text = t :: rest ->
  dict_get type_map (lower t) = Some ty ->
  (2 <= length rest)%nat ->
  parse_telegram_transaction today text
  = parse_typed today (lower t) (t :: rest).
Proof.
  intros Htok Hty Hlen. unfold parse_telegram_transaction.
  destruct (decide (strip text = [])) as [Hs|_].
  { by apply tokens_cons_strip in Htok. }
  rewrite Htok.
  apply type_map_key_not_keyword in Hty. destruct Hty as [Hkw Hadd].
  destruct (decide (lower t ∈ [py "help"; py "start"])); [contradiction|].
  destruct (length (t :: rest) <? 3)%nat eqn:H3.
  { apply Nat.ltb_lt in H3. simpl in H3. lia. }
  destruct (decide (lower t = py "add")); [contradiction|].
  reflexivity.
Qed.

(** C5: [parse("/expense 32.5 餐饮 午饭")] succeeds with the type expense,
    the amount 32.5 (65/2), the category 餐饮, the note 午饭 and the date of
    the clock; and whenever a parse succeeds, the note is the tokens after
    the category joined by single spaces (none of them: the empty note). *)
Theorem parse_expense_note (today : date) :
  (∃ d, parse_telegram_transaction today (py "/expense 32.5 餐饮 午饭")
        = (Some (Tx d), [])
        ∧ tx_type d = py "expense"
        ∧ is_ratio (tx_amount d) 65 2
        ∧ tx_category d = py "餐饮"
        ∧ tx_note d = py "午饭"
        ∧ tx_happened_on d = isoformat today)
  ∧ ∀ (text : pystr) (d : tx_dict) (err : pystr),
      parse_telegram_transaction today text = (Some (Tx d), err) ->
      tx_category d = nth 2 (command_tokens text) []
      ∧ tx_note d = join (py " ") (drop 3 (command_tokens text)).
Proof.
  split.
  - eexists. split; [vm_compute; reflexivity|].
    do 4 (split; [vm_compute; reflexivity|]). vm_compute. reflexivity.
  - intros text d err H. apply parse_Tx_typed in H. destruct H as [Hlen H].
    apply parse_typed_Tx in H.
    destruct H as (_ & _ & _ & _ & Hcat & _ & Hnote & _).
    split; [exact Hcat|]. rewrite Hnote.
    assert (Htoks : Forall is_token (drop 3 (command_tokens text))).
    { apply Forall_drop_tokens. unfold command_tokens.
      destruct (decide _); [apply Forall_tail_tokens|]; apply tokens_are_tokens. }
    destruct (3 <? length (command_tokens text))%nat eqn:H3.
    + by apply strip_join_tokens.
    + apply Nat.ltb_ge in H3. rewrite drop_ge by exact H3. reflexivity.
Qed.

Lemma parse_expense_note_witness :
  parse_telegram_transaction a_day (py "/income 1e3 奖金  年终   奖 ")
  = (Some (Tx {| tx_type := py "income";
                 tx_amount := S754_finite false 8796093022208000 (-43);
                 tx_category := py "奖金"; tx_note := py "年终 奖";
                 tx_happened_on := py "2024-03-07" |}), [])
  ∧ py "年终 奖"
    = join (py " ") (drop 3 (command_tokens (py "/income 1e3 奖金  年终   奖 "))).
Proof.
  split; [vm_compute; reflexivity|].
  refine (proj2 (proj2 (parse_expense_note a_day) _
                   {| tx_type := py "income";
                      tx_amount := S754_finite false 8796093022208000 (-43);
                      tx_category := py "奖金"; tx_note := py "年终 奖";
                      tx_happened_on := py "2024-03-07" |} [] _)).
  vm_compute. reflexivity.
Defined.

(** C6, as the code has it: an unrecognised first token gives the error
    "unsupported command" when the tokens are three at least; when they are
    fewer, the length check of line 454 comes first and the error is the
    usage example. *)
Theorem unsupported_command_three_tokens (today : date) (text p0 : pystr)
    (rest : list pystr) :
  tokens text = p0 :: rest ->
  lower p0 ∉ [py "help"; py "start"; py "add"] ->
  dict_get type_map (lower p0) = None ->
  ((2 <= length rest)%nat ->
   parse_telegram_transaction today text = (None, msg_unsupported))
  ∧ ((length rest < 2)%nat ->
     parse_telegram_transaction today text = (None, msg_format_expense)).
Proof.
  intros Htok Hkw Hty. unfold parse_telegram_transaction.
  destruct (decide (strip text = [])) as [Hs|_].
  { by apply tokens_cons_strip in Htok. }
  rewrite Htok.
  apply not_elem_of_cons in Hkw. destruct Hkw as [Hhelp Hkw].
  apply not_elem_of_cons in Hkw. destruct Hkw as [Hstart Hkw].
  apply not_elem_of_cons in Hkw. destruct Hkw as [Hadd _].
  destruct (decide (lower p0 ∈ [py "help"; py "start"])) as [Hin|_].
  { apply elem_of_cons in Hin. destruct Hin as [Hin|Hin]; [contradiction|].
    apply elem_of_cons in Hin. destruct Hin as [Hin|Hin]; [contradiction|].
    apply elem_of_nil in Hin. destruct Hin. }
  split; intros Hlen.
  - destruct (length (p0 :: rest) <? 3)%nat eqn:H3.
    { apply Nat.ltb_lt in H3. simpl in H3. lia. }
    destruct (decide (lower p0 = py "add")); [contradiction|].
    unfold parse_typed. rewrite Hty. reflexivity.
  - destruct (length (p0 :: rest) <? 3)%nat eqn:H3; [reflexivity|].
    apply Nat.ltb_ge in H3. simpl in H3. lia.
Qed.

Lemma unsupported_command_three_tokens_witness :
  parse_telegram_transaction a_day (py "/transfer 10 餐饮")
  = (None, msg_unsupported)
  ∧ parse_telegram_transaction a_day (py "/transfer 10")
    = (None, msg_format_expense).
Proof.
  assert (Hkw : lower (py "transfer") ∉ [py "help"; py "start"; py "add"]).
  { vm_compute. intros H.
    repeat (apply elem_of_cons in H; destruct H as [H|H]; [discriminate H|]).
    apply elem_of_nil in H. destruct H. }
  assert (Hty : dict_get type_map (lower (py "transfer")) = None)
    by (vm_compute; reflexivity).
  split.
  - assert (Htok : tokens (py "/transfer 10 餐饮")
                   = py "transfer" :: [py "10"; py "餐饮"])
      by (vm_compute; reflexivity).
    refine (proj1 (unsupported_command_three_tokens a_day _ _ _ Htok Hkw Hty) _).
    vm_compute. lia.
  - assert (Htok : tokens (py "/transfer 10") = py "transfer" :: [py "10"])
      by (vm_compute; reflexivity).
    refine (proj2 (unsupported_command_three_tokens a_day _ _ _ Htok Hkw Hty) _).
    vm_compute. lia.
Defined.

(** C6 fails as it is written: the one-token message "/foo" is not empty and
    its token is no command, and the answer is the usage example. *)
Lemma unsupported_command_short_message : ¬ unsupported_claim.
Proof.
  intros H.
  specialize (H a_day (py "/foo") (py "foo") []).
  assert (Hr : parse_telegram_transaction a_day (py "/foo")
               = (None, msg_format_expense)) by (vm_compute; reflexivity).
  rewrite Hr in H.
  assert (Hne : (None, msg_format_expense)
                ≠ (@None parsed, msg_unsupported)).
  { vm_compute. discriminate. }
  apply Hne. apply H.
  - vm_compute. discriminate.
  - vm_compute. reflexivity.
  - vm_compute. intros Hin.
    repeat (apply elem_of_cons in Hin; destruct Hin as [Hin|Hin];
            [discriminate Hin|]).
    apply elem_of_nil in Hin. destruct Hin.
  - vm_compute. reflexivity.
Qed.

Lemma add_not_help : py "add" ∉ [py "help"; py "start"].
Proof.
  vm_compute. intros Hin.
  repeat (apply elem_of_cons in Hin; destruct Hin as [Hin|Hin];
          [discriminate Hin|]).
  apply elem_of_nil in Hin. destruct Hin.
Qed.

(** C7: [parse("/add 收入 100 工资")] succeeds with the type income, the
    amount 100, the category 工资 and no note.  An add command of four tokens
    or more is parsed from the tokens after add, the type token being looked
    up in the type table, and has the result of the direct command made of
    those tokens; one of fewer tokens gives an error with a usage example. *)
Theorem parse_add_command (today : date) :
  (∃ d, parse_telegram_transaction today (py "/add 收入 100 工资")
        = (Some (Tx d), [])
        ∧ tx_type d = py "income"
        ∧ is_ratio (tx_amount d) 100 1
        ∧ tx_category d = py "工资"
        ∧ tx_note d = [])
  ∧ (∀ (text a t : pystr) (rest : list pystr),
       tokens text = a :: t :: rest ->
       lower a = py "add" ->
       (2 <= length rest)%nat ->
       parse_telegram_transaction today text
       = parse_typed today (lower t) (t :: rest)
       ∧ ∀ text' : pystr,
           tokens text' = t :: rest ->
           is_Some (dict_get type_map (lower t)) ->
           parse_telegram_transaction today text
           = parse_telegram_transaction today text')
  ∧ (∀ (text a : pystr) (rest : list pystr),
       tokens text = a :: rest ->
       lower a = py "add" ->
       (length rest < 3)%nat ->
       parse_telegram_transaction today text = (None, msg_format_expense)
       ∨ parse_telegram_transaction today text = (None, msg_format_add)).
Proof.
  split; [|split].
  - eexists. split; [vm_compute; reflexivity|].
    do 3 (split; [vm_compute; reflexivity|]). vm_compute. reflexivity.
  - intros text a t rest Htok Ha Hlen.
    pose proof (parse_add_typed today text a t rest Htok Ha Hlen) as Hadd.
    split; [exact Hadd|].
    intros text' Htok' [ty Hty]. rewrite Hadd. symmetry.
    by apply (parse_direct_typed today text' t ty rest).
  - intros text a rest Htok Ha Hlen. unfold parse_telegram_transaction.
    destruct (decide (strip text = [])) as [Hs|_].
    { by apply tokens_cons_strip in Htok. }
    rewrite Htok, Ha.
    destruct (decide (py "add" ∈ [py "help"; py "start"])) as [Hin|_].
    { by apply add_not_help in Hin. }
    destruct (length (a :: rest) <? 3)%nat eqn:H3; [by left|].
    destruct (decide (py "add" = py "add")) as [_|Hne]; [|by destruct Hne].
    destruct (length (a :: rest) <? 4)%nat eqn:H4; [by right|].
    apply Nat.ltb_ge in H4. simpl in H4. lia.
Qed.

Lemma parse_add_command_witness :
  parse_telegram_transaction a_day (py "/ADD 支出 32.5 餐饮 午饭")
  = parse_telegram_transaction a_day (py "支出 32.5 餐饮 午饭")
  ∧ (parse_telegram_transaction a_day (py "/add 支出 32.5")
     = (None, msg_format_expense)
     ∨ parse_telegram_transaction a_day (py "/add 支出 32.5")
       = (None, msg_format_add)).
Proof.
  assert (Ha : lower (py "ADD") = py "add") by (vm_compute; reflexivity).
  assert (Ha' : lower (py "add") = py "add") by (vm_compute; reflexivity).
  split.
  - assert (Htok : tokens (py "/ADD 支出 32.5 餐饮 午饭")
                   = py "ADD" :: py "支出" :: [py "32.5"; py "餐饮"; py "午饭"])
      by (vm_compute; reflexivity).
    assert (Hlen : (2 <= length [py "32.5"; py "餐饮"; py "午饭"])%nat)
      by (vm_compute; lia).
    refine (proj2 (proj1 (proj2 (parse_add_command a_day)) _ _ _ _
                     Htok Ha Hlen) _ _ _).
    + vm_compute. reflexivity.
    + exists (py "expense"). vm_compute. reflexivity.
  - assert (Htok : tokens (py "/add 支出 32.5")
                   = py "add" :: [py "支出"; py "32.5"])
      by (vm_compute; reflexivity).
    refine (proj2 (proj2 (parse_add_command a_day)) _ _ _ Htok Ha' _).
    vm_compute. lia.
Defined.

(** C8 at the message "/expense nan 餐饮": the parse succeeds and the amount
    is a NaN, which is not at least zero; the guard of line 480 lets it
    through, because [nan < 0] is false. *)
Theorem parse_accepts_nan (today : date) :
  ∃ d, parse_telegram_transaction today (py "/expense nan 餐饮")
       = (Some (Tx d), [])
       ∧ tx_amount d = nan
       ∧ lt (tx_amount d) zero = false
       ∧ ge (tx_amount d) zero = false.
Proof.
  eexists. split; [vm_compute; reflexivity|].
  split; [vm_compute; reflexivity|].
  split; vm_compute; reflexivity.
Qed.

End ParserFacts.

(** ** The message handler *)

Module HandlerFacts.
Import PyStr PyFloat Ledger Samples AsWritten PyStrFacts ParserFacts.

Lemma contains_myid (cid : Z) : contains (str_of_Z cid) (msg_myid cid).
Proof. exists (py "当前 chat id: "), []. by rewrite app_nil_r. Qed.

Lemma contains_unauthorized (cid : Z) :
  contains (str_of_Z cid) (msg_unauthorized cid).
Proof.
  by exists (py "未授权聊天。当前 chat id: "), (py "，请在系统配置中绑定后再试。").
Qed.

(** C3: a message whose trimmed, lower-cased text is /myid or myid gets one
    reply, to its chat, that contains the chat id; this is all the handler
    does, in every world, so that neither the allowed chat id nor anything
    else of the configuration matters and no transaction is recorded. *)
Theorem myid_replies_before_gate (clk : clock) (token : pystr) (m : message)
    (cid : Z) (w : world) :
  message_chat_id m = Some cid ->
  lower (strip (default [] (msg_text m))) ∈ [py "/myid"; py "myid"] ->
  handle_telegram_message clk token m w
  = Returned tt (emit (SendMessage token cid (msg_myid cid)) w)
  ∧ contains (str_of_Z cid) (msg_myid cid)
  ∧ transactions (world_of (handle_telegram_message clk token m w))
    = transactions w
  ∧ config (world_of (handle_telegram_message clk token m w)) = config w.
Proof.
  intros Hid Htext.
  assert (Hrun : handle_telegram_message clk token m w
                 = Returned tt (emit (SendMessage token cid (msg_myid cid)) w)).
  { unfold handle_telegram_message. rewrite Hid.
    destruct (decide _) as [_|Hno]; [reflexivity | contradiction]. }
  rewrite Hrun. split; [reflexivity|]. split; [apply contains_myid|].
  split; reflexivity.
Qed.

Lemma myid_replies_before_gate_witness :
  handle_telegram_message a_clock (py "T")
    {| msg_text := Some (py "  /MyId "); msg_chat := a_chat 42 |}
    (world_allowing (py "7"))
  = Returned tt
      (emit (SendMessage (py "T") 42 (py "当前 chat id: 42"))
         (world_allowing (py "7"))).
Proof.
  refine (proj1 (myid_replies_before_gate a_clock (py "T")
                   {| msg_text := Some (py "  /MyId "); msg_chat := a_chat 42 |}
                   42 (world_allowing (py "7")) _ _)).
  - reflexivity.
  - vm_compute. apply list_elem_of_here.
Defined.

(** C10: a message whose chat has no id, or that has no chat, is dropped:
    the handler returns in the world it was called in, whatever the text. *)
Theorem no_chat_id_no_effect (clk : clock) (token : pystr)
    (text : option pystr) (w : world) :
  handle_telegram_message clk token
    {| msg_text := text; msg_chat := Some {| chat_id := None |} |} w
  = Returned tt w
  ∧ handle_telegram_message clk token
      {| msg_text := text; msg_chat := None |} w
    = Returned tt w.
Proof. split; reflexivity. Qed.

(** C4, as the code has it: the configured value is trimmed when it is read
    (line 526).  A chat is allowed, and its message goes to the parser, when
    the trimmed value is empty or is the decimal form of the chat id;
    otherwise the chat is denied: one message containing its id is sent to
    it, and the transactions and the configuration stay as they were. *)
Theorem allow_list_gate (clk : clock) (token : pystr) (m : message) (cid : Z)
    (w : world) :
  message_chat_id m = Some cid ->
  lower (strip (default [] (msg_text m))) ∉ [py "/myid"; py "myid"] ->
  let allowed_chat_id :=
    strip (default [] (config w !! "telegram_allowed_chat_id")) in
  (allowed_chat_id = [] ∨ str_of_Z cid = allowed_chat_id ->
   handle_telegram_message clk token m w
   = handle_parsed clk token cid
       (parse_telegram_transaction (today clk) (default [] (msg_text m))) w)
  ∧ (allowed_chat_id ≠ [] ∧ str_of_Z cid ≠ allowed_chat_id ->
     handle_telegram_message clk token m w
     = Returned tt (emit (SendMessage token cid (msg_unauthorized cid)) w)
     ∧ contains (str_of_Z cid) (msg_unauthorized cid)
     ∧ transactions (world_of (handle_telegram_message clk token m w))
       = transactions w
     ∧ config (world_of (handle_telegram_message clk token m w)) = config w).
Proof.
  intros Hid Htext. cbv zeta.
  unfold handle_telegram_message. rewrite Hid.
  destruct (decide (lower (strip (default [] (msg_text m)))
                    ∈ [py "/myid"; py "myid"])) as [Hin|_]; [contradiction|].
  unfold bind, get_config. cbv beta iota.
  case_decide as Hdeny.
  - split.
    + intros [He|He]; destruct Hdeny as [Hne Hneq]; contradiction.
    + intros _. split; [reflexivity|]. split; [apply contains_unauthorized|].
      split; reflexivity.
  - split; [reflexivity|]. intros Hd. contradiction.
Qed.

Lemma expense_message_not_myid (cid : Z) :
  lower (strip (default [] (msg_text (expense_message cid))))
  ∉ [py "/myid"; py "myid"].
Proof.
  vm_compute. intros H.
  repeat (apply elem_of_cons in H; destruct H as [H|H]; [discriminate H|]).
  apply elem_of_nil in H. destruct H.
Qed.

Lemma allow_list_gate_witness :
  handle_telegram_message a_clock (py "T") (expense_message 123)
    (world_allowing (py "123"))
  = handle_parsed a_clock (py "T") 123
      (parse_telegram_transaction (today a_clock)
         (default [] (msg_text (expense_message 123))))
      (world_allowing (py "123"))
  ∧ handle_telegram_message a_clock (py "T") (expense_message 99)
      (world_allowing (py "123"))
    = Returned tt
        (emit (SendMessage (py "T") 99 (msg_unauthorized 99))
           (world_allowing (py "123"))).
Proof.
  split.
  - refine (proj1 (allow_list_gate a_clock (py "T") (expense_message 123) 123
                     (world_allowing (py "123")) eq_refl
                     (expense_message_not_myid 123)) _).
    right. vm_compute. reflexivity.
  - refine (proj1 (proj2 (allow_list_gate a_clock (py "T") (expense_message 99)
                            99 (world_allowing (py "123")) eq_refl
                            (expense_message_not_myid 99)) _)).
    split; vm_compute; discriminate.
Defined.

(** C4 fails as it is written: with the stored value " 123 " the chat 123
    is allowed and its expense is recorded, although "123" is not the stored
    value. *)
Lemma allow_list_padded_value : ¬ allow_list_claim.
Proof.
  intros H.
  destruct (H a_clock (py "T") (expense_message 123) 123
              (world_allowing (py " 123 ")) eq_refl
              (expense_message_not_myid 123))
    as [_ Hdeny].
  assert (Hd : handle_telegram_message a_clock (py "T") (expense_message 123)
                 (world_allowing (py " 123 "))
               = Returned tt
                   (emit (SendMessage (py "T") 123 (msg_unauthorized 123))
                      (world_allowing (py " 123 ")))).
  { apply Hdeny. split; vm_compute; discriminate. }
  apply (f_equal (fun o => length (transactions (world_of o)))) in Hd.
  vm_compute in Hd. discriminate Hd.
Qed.

End HandlerFacts.

(** ** The polling loop *)

Module LoopFacts.
Import PyStr PyFloat Ledger Samples AsWritten PyStrFacts ParserFacts
  HandlerFacts.

(** Closes a goal [(None, msg) ≠ (None, [])] for a message that is a
    literal. *)
Ltac literal_error :=
  let H := fresh "H" in
  intros H; apply (f_equal snd) in H; vm_compute in H; discriminate H.

Lemma parse_typed_error (today : date) (cmd : pystr) (parts : list pystr) :
  parse_typed today cmd parts ≠ (None, []).
Proof.
  unfold parse_typed.
  destruct (dict_get type_map cmd) as [[|c ty]|];
    [literal_error | | literal_error].
  destruct (py_float (nth 1 parts [])) as [amount|]; [|literal_error].
  destruct (lt amount zero); [literal_error|].
  destruct (decide (nth 2 parts [] ∈ ALLOWED_CATEGORIES));
    [discriminate | literal_error].
Qed.

(** The parser's error message is not empty when it returns no command. *)
Lemma parse_error_nonempty (today : date) (text : pystr) :
  parse_telegram_transaction today text ≠ (None, []).
Proof.
  unfold parse_telegram_transaction.
  destruct (decide (strip text = [])); [literal_error|].
  destruct (tokens text) as [|p0 rest]; [literal_error|].
  destruct (decide (lower p0 ∈ [py "help"; py "start"])); [discriminate|].
  destruct (length (p0 :: rest) <? 3)%nat; [literal_error|].
  destruct (decide (lower p0 = py "add")); [|apply parse_typed_error].
  destruct (length (p0 :: rest) <? 4)%nat; [literal_error|].
  apply parse_typed_error.
Qed.

Lemma send_run (token : pystr) (cid : Z) (text : pystr) (w : world) :
  handler_run w (send_telegram_message token cid text w).
Proof.
  split; [reflexivity|]. split; [|exact I].
  exists [SendMessage token cid text]. split; [reflexivity|].
  by repeat constructor.
Qed.

Lemma handle_parsed_run (clk : clock) (token : pystr) (cid : Z)
    (res : option parsed * pystr) (w : world) :
  res ≠ (None, []) ->
  handler_run w (handle_parsed clk token cid res w).
Proof.
  intros Hres. destruct res as [[[|d]|] [|e err]]; simpl;
    try apply send_run; [|contradiction].
  unfold bind, add_transaction_record.
  destruct (row_accepted _).
  - split; [reflexivity|]. split; [|exact I]. simpl.
    eexists [_; _]. rewrite <- app_assoc. split; [reflexivity|].
    by repeat constructor.
  - split; [reflexivity|]. split; [|split; reflexivity].
    exists []. rewrite app_nil_r. split; [reflexivity | constructor].
Qed.

Lemma handle_run (clk : clock) (token : pystr) (m : message) (w : world) :
  handler_run w (handle_telegram_message clk token m w).
Proof.
  unfold handle_telegram_message.
  destruct (message_chat_id m) as [cid|].
  - destruct (decide _); [apply send_run|].
    unfold bind, get_config. cbv beta iota.
    case_decide; [apply send_run|].
    apply handle_parsed_run, parse_error_nonempty.
  - split; [reflexivity|]. split; [|exact I].
    exists []. rewrite app_nil_r. split; [reflexivity | constructor].
Qed.

(** One update: the cursor is written first, the message is handled in the
    world that has it. *)
Lemma process_update_eq (clk : clock) (token : pystr) (u : update)
    (w : world) :
  process_update clk token u w
  = let w1 := match update_id u with
              | Some id => cursor_set id w
              | None => w
              end in
    match upd_message u with
    | Some m => handle_telegram_message clk token m w1
    | None => Returned tt w1
    end.
Proof.
  unfold process_update, bind.
  destruct (update_id u), (upd_message u); reflexivity.
Qed.

(** One update with an integer id: the id is written as the cursor, and
    everything the handler does comes after that write in the log. *)
Lemma process_update_run (clk : clock) (token : pystr) (u : update) (id : Z)
    (w : world) :
  update_id u = Some id ->
  cursor (world_of (process_update clk token u w)) = Some (str_of_Z id)
  ∧ ∃ evs,
      log (world_of (process_update clk token u w))
      = log w ++ SetConfig "telegram_last_update_id" (str_of_Z id) :: evs
      ∧ Forall is_handling evs.
Proof.
  intros Hid. rewrite process_update_eq, Hid. cbv zeta.
  assert (Hc1 : cursor (cursor_set id w) = Some (str_of_Z id)).
  { unfold cursor, cursor_set. simpl. apply lookup_insert_eq. }
  assert (Hl1 : log (cursor_set id w)
                = log w ++ [SetConfig "telegram_last_update_id" (str_of_Z id)])
    by reflexivity.
  destruct (upd_message u) as [m|].
  - destruct (handle_run clk token m (cursor_set id w))
      as (Hcfg & (evs & Hlog & Hevs) & _).
    split.
    + unfold cursor. rewrite Hcfg. exact Hc1.
    + exists evs. rewrite Hlog, Hl1, <- app_assoc.
      split; [reflexivity | exact Hevs].
  - split; [exact Hc1|]. exists []. split; [exact Hl1 | constructor].
Qed.

Lemma process_update_raise (clk : clock) (token : pystr) (u : update)
    (w w' : world) (e : exn) :
  process_update clk token u w = Raised e w' -> e = IntegrityError.
Proof.
  rewrite process_update_eq. cbv zeta.
  destruct (upd_message u) as [m|]; [|discriminate].
  intros H.
  match type of H with
  | handle_telegram_message _ _ _ ?w1 = _ =>
    pose proof (handle_run clk token m w1) as (_ & _ & Hr)
  end.
  rewrite H in Hr. by destruct Hr.
Qed.

(** A batch that is gone through to its end leaves the id of its last
    update as the cursor. *)
Lemma batch_cursor_last (clk : clock) (token : pystr) (us : list update)
    (ids : list Z) (w w' : world) :
  map update_id us = map Some ids ->
  for_each (process_update clk token) us w = Returned tt w' ->
  cursor w' = match last ids with
              | Some i => Some (str_of_Z i)
              | None => cursor w
              end.
Proof.
  revert ids w. induction us as [|u us IH]; intros ids w Hids Hrun.
  - destruct ids; [|discriminate]. injection Hrun as ->. reflexivity.
  - destruct ids as [|i ids]; [discriminate|].
    injection Hids as Hu Hids.
    cbn [for_each] in Hrun. unfold bind in Hrun.
    destruct (process_update clk token u w) as [[] w1|e w1] eqn:Hstep;
      [|discriminate].
    pose proof (process_update_run clk token u i w Hu) as [Hc _].
    rewrite Hstep in Hc. simpl in Hc.
    rewrite (IH ids w1 Hids Hrun).
    destruct ids as [|j ids']; [exact Hc|].
    rewrite last_cons_cons.
    destruct (last (j :: ids')) eqn:Hl; [reflexivity|].
    apply last_None in Hl. discriminate Hl.
Qed.

Lemma foldr_max_sorted (i : Z) (ids : list Z) :
  StronglySorted Z.lt (i :: ids) -> foldr Z.max i ids = default i (last ids).
Proof.
  revert i. induction ids as [|j ids IH]; intros i Hs; [reflexivity|].
  apply StronglySorted_inv in Hs. destruct Hs as [Hs Hi].
  apply Forall_cons in Hi. destruct Hi as [Hij Hi].
  apply StronglySorted_inv in Hs. destruct Hs as [Hs Hj].
  cbn [foldr]. rewrite (IH i) by (by constructor).
  destruct ids as [|k ids']; [simpl; lia|].
  rewrite last_cons_cons.
  destruct (last (k :: ids')) as [l|] eqn:Hl.
  - simpl. apply Z.max_r. apply last_Some_elem_of in Hl.
    rewrite Forall_forall in Hj. apply Hj in Hl. lia.
  - apply last_None in Hl. discriminate Hl.
Qed.

Lemma maximum_sorted_last (ids : list Z) :
  StronglySorted Z.lt ids -> maximum ids = last ids.
Proof.
  destruct ids as [|i ids]; [reflexivity|]. intros Hs. simpl.
  rewrite (foldr_max_sorted i ids Hs).
  destruct ids as [|j ids']; [reflexivity|].
  rewrite last_cons_cons.
  destruct (last (j :: ids')) eqn:Hl; [reflexivity|].
  apply last_None in Hl. discriminate Hl.
Qed.

(** A batch with strictly increasing ids that is gone through to its end
    leaves the greatest id as the cursor, whatever the handler did with the
    messages. *)
Lemma batch_cursor_maximum (clk : clock) (token : pystr) (us : list update)
    (ids : list Z) (w w' : world) :
  strictly_increasing_ids us ids ->
  us ≠ [] ->
  for_each (process_update clk token) us w = Returned tt w' ->
  cursor w' = str_of_Z <$> maximum ids.
Proof.
  intros [Hids Hsorted] Hne Hrun.
  rewrite (batch_cursor_last clk token us ids w w' Hids Hrun).
  rewrite (maximum_sorted_last ids Hsorted).
  destruct ids as [|i ids]; [by destruct us|].
  destruct (last (i :: ids)) eqn:Hl; [reflexivity|].
  apply last_None in Hl. discriminate Hl.
Qed.

(** The only error a batch stops on is the table's refusal of a row. *)
Lemma batch_raise (clk : clock) (token : pystr) (us : list update)
    (w w' : world) (e : exn) :
  for_each (process_update clk token) us w = Raised e w' ->
  e = IntegrityError.
Proof.
  revert w. induction us as [|u us IH]; intros w; [discriminate|].
  cbn [for_each]. unfold bind.
  destruct (process_update clk token u w) as [[] w1|e1 w1] eqn:Hstep.
  - apply IH.
  - intros [= <- <-]. by apply process_update_raise in Hstep.
Qed.

(** C2: when the answer to the request of a turn is not ok, the turn
    returns, and all it has done is to make the request and to sleep: the
    cursor, the rest of the configuration and the transactions are as they
    were. *)
Theorem not_ok_changes_nothing (clk : clock) (remote : api) (w : world)
    (result : list update) :
  remote (request_token w) (request_offset w) = Json false result ->
  ∃ w', poll_once clk remote w = Returned tt w'
        ∧ cursor w' = cursor w
        ∧ config w' = config w
        ∧ transactions w' = transactions w
        ∧ ∃ evs, log w' = log w ++ evs ∧ Forall is_wait evs.
Proof.
  unfold request_token, request_offset, cursor. intros Hresp.
  unfold poll_once, bind, get_config. cbv beta iota zeta.
  case_decide.
  - eexists. split; [reflexivity|]. do 3 (split; [reflexivity|]).
    eexists [_]. split; [reflexivity|]. by repeat constructor.
  - unfold telegram_api_get. cbv beta iota.
    match goal with
    | |- context [remote ?t ?o] =>
      replace (remote t o) with (Json false result) by (symmetry; exact Hresp)
    end.
    eexists. split; [reflexivity|]. do 3 (split; [reflexivity|]).
    eexists [_; _]. simpl. rewrite <- app_assoc. split; [reflexivity|].
    by repeat constructor.
Qed.

Lemma not_ok_changes_nothing_witness :
  ∃ w', poll_once a_clock (fun _ _ => Json false nan_batch) polling_world
        = Returned tt w'
        ∧ cursor w' = cursor polling_world
        ∧ config w' = config polling_world
        ∧ transactions w' = transactions polling_world
        ∧ ∃ evs, log w' = log polling_world ++ evs ∧ Forall is_wait evs.
Proof.
  exact (not_ok_changes_nothing a_clock (fun _ _ => Json false nan_batch)
           polling_world nan_batch eq_refl).
Defined.

(** C1 at a batch of two updates with the ids 1 and 2, the first of which
    carries "/expense nan 餐饮" from an allowed chat: the turn sets the cursor
    to 1, the parser accepts the NaN, the table refuses the row and the
    error ends the turn and the loop.  The id 2 is never written: the cursor
    is left at 1, which is not the greatest id of the batch. *)
Theorem nan_amount_stops_batch :
  strictly_increasing_ids nan_batch [1; 2]
  ∧ maximum [1; 2] = Some 2
  ∧ ∃ w', poll_once a_clock (fun _ _ => Json true nan_batch) polling_world
          = Raised IntegrityError w'
          ∧ cursor w' = Some (py "1")
          ∧ transactions w' = []
          ∧ log w' = [GetUpdates (py "T") 1;
                      SetConfig "telegram_last_update_id" (py "1")]
          ∧ ∀ remotes : list api,
              telegram_poll_loop a_clock
                ((fun _ _ => Json true nan_batch) :: remotes) polling_world
              = Raised IntegrityError w'.
Proof.
  split; [|split; [reflexivity|]].
  { split; [reflexivity|]. repeat constructor. }
  assert (Hrun : ∃ w', poll_once a_clock (fun _ _ => Json true nan_batch)
                         polling_world = Raised IntegrityError w'
                       ∧ cursor w' = Some (py "1")
                       ∧ transactions w' = []
                       ∧ log w' = [GetUpdates (py "T") 1;
                                   SetConfig "telegram_last_update_id" (py "1")]).
  { eexists. split; [vm_compute; reflexivity|].
    split; [vm_compute; reflexivity|]. split; vm_compute; reflexivity. }
  destruct Hrun as (w' & Hrun & Hc & Ht & Hl).
  exists w'. do 4 (split; [assumption|]).
  intros remotes. unfold telegram_poll_loop. cbn [for_each]. unfold bind.
  rewrite Hrun. reflexivity.
Qed.

End LoopFacts.

Module PollerFacts.
Import Poller.

Lemma invariant_initial : invariant initial.
Proof. split; intros; simpl in *; try discriminate; by destruct H. Qed.

(** A call other than the one that moves is where it was. *)
Ltac other_call H :=
  apply list_lookup_insert_Some in H;
  destruct H as [(? & ? & ?) | (? & H)]; simplify_eq.

Lemma invariant_step (s s' : state) (a : action) :
  invariant s -> step s a = Some s' -> invariant s'.
Proof.
  intros [Hlock Hcur Hstart] Hstep.
  destruct a as [|c|c|c|c|c|t]; simpl in Hstep.
  - (* Call *)
    injection Hstep as <-. split; simpl.
    + intros c p Hc Hp. apply lookup_snoc_Some in Hc.
      destruct Hc as [[_ Hc]|[_ <-]]; [eauto | destruct Hp].
    + exact Hcur.
    + intros c Hc. apply (Hstart c).
      destruct Hc as [Hc|Hc]; apply lookup_snoc_Some in Hc;
        destruct Hc as [[_ Hc]|[_ Hnew]]; try discriminate Hnew; auto.
  - (* Acquire *)
    destruct (calls s !! c) as [[]|] eqn:Hc; try discriminate.
    destruct (telegram_lock s) eqn:Hl; [discriminate|].
    injection Hstep as <-. split; simpl.
    + intros c' p Hc' Hp. other_call Hc'; [reflexivity|].
      specialize (Hlock c' p Hc' Hp). discriminate.
    + exact Hcur.
    + intros c' Hc'. apply (Hstart c').
      destruct Hc' as [Hc'|Hc']; other_call Hc'; auto.
  - (* Check *)
    destruct (calls s !! c) as [[]|] eqn:Hc; try discriminate.
    injection Hstep as <-.
    pose proof (Hlock c AtCheck Hc I) as Hheld.
    split; simpl.
    + intros c' p Hc' Hp. other_call Hc'; [exact Hheld | eauto].
    + exact Hcur.
    + intros c' Hc' t Ht.
      assert (Hold : calls s !! c' = Some AtCreate
                     ∨ calls s !! c' = Some AtStart
                     ∨ (c' = c ∧ match telegram_thread s with
                                 | Some t0 => is_alive s t0
                                 | None => false
                                 end = false)).
      { destruct Hc' as [Hc'|Hc']; other_call Hc'; auto.
        - right. right. split; [reflexivity|].
          by destruct (match telegram_thread s with
                       | Some t0 => is_alive s t0
                       | None => false
                       end).
        - by destruct (match telegram_thread s with
                       | Some t0 => is_alive s t0
                       | None => false
                       end). }
      destruct Hold as [Ho|[Ho|[_ Hdead]]];
        [by apply (Hstart c' (or_introl Ho) t)
        |by apply (Hstart c' (or_intror Ho) t)|].
      rewrite (Hcur t Ht) in Hdead. unfold is_alive in Hdead.
      rewrite Ht in Hdead. discriminate.
  - (* Create *)
    destruct (calls s !! c) as [[]|] eqn:Hc; try discriminate.
    injection Hstep as <-.
    pose proof (Hlock c AtCreate Hc I) as Hheld.
    pose proof (Hstart c (or_introl Hc)) as Hnone.
    assert (Hnew : ∀ t, (threads s ++ [Created]) !! t ≠ Some Running).
    { intros t Ht. apply lookup_snoc_Some in Ht.
      destruct Ht as [[_ Ht]|[_ ?]]; [by apply (Hnone t) | discriminate]. }
    split; simpl.
    + intros c' p Hc' Hp. other_call Hc'; [exact Hheld | eauto].
    + intros t Ht. by apply Hnew in Ht.
    + intros _ _. exact Hnew.
  - (* Start *)
    destruct (calls s !! c) as [[]|] eqn:Hc; try discriminate.
    destruct (telegram_thread s) as [t0|] eqn:Ht0; [|discriminate].
    injection Hstep as <-.
    pose proof (Hlock c AtStart Hc I) as Hheld.
    pose proof (Hstart c (or_intror Hc)) as Hnone.
    split; simpl.
    + intros c' p Hc' Hp. other_call Hc'; [exact Hheld | eauto].
    + intros t Ht. apply list_lookup_insert_Some in Ht.
      destruct Ht as [(-> & _ & _)|(_ & Ht)];
        [reflexivity | by apply Hnone in Ht].
    + intros c' Hc'.
      assert (Hin : c' ≠ c ∧ ∃ p, calls s !! c' = Some p ∧ in_critical p).
      { destruct Hc' as [Hc'|Hc']; other_call Hc';
          try discriminate; split; eauto; by eexists. }
      destruct Hin as (Hne & p & Hp & Hcrit).
      specialize (Hlock c' p Hp Hcrit). congruence.
  - (* Release *)
    destruct (calls s !! c) as [[]|] eqn:Hc; try discriminate.
    injection Hstep as <-.
    pose proof (Hlock c AtRelease Hc I) as Hheld.
    split; simpl.
    + intros c' p Hc' Hp. other_call Hc'; [destruct Hp|].
      specialize (Hlock c' p Hc' Hp). congruence.
    + exact Hcur.
    + intros c' Hc'.
      assert (Hin : c' ≠ c ∧ ∃ p, calls s !! c' = Some p ∧ in_critical p).
      { destruct Hc' as [Hc'|Hc']; other_call Hc';
          try discriminate; split; eauto; by eexists. }
      destruct Hin as (Hne & p & Hp & Hcrit).
      specialize (Hlock c' p Hp Hcrit). congruence.
  - (* Exit *)
    destruct (threads s !! t) as [[]|] eqn:Ht; try discriminate.
    injection Hstep as <-. split; simpl.
    + exact Hlock.
    + intros t' Ht'. apply list_lookup_insert_Some in Ht'.
      destruct Ht' as [(_ & ? & _)|(_ & Ht')]; [discriminate | eauto].
    + intros c Hc t' Ht'. apply list_lookup_insert_Some in Ht'.
      destruct Ht' as [(_ & ? & _)|(_ & Ht')]; [discriminate|].
      by apply (Hstart c Hc t').
Qed.

Lemma invariant_run (acts : list action) (s s' : state) :
  invariant s -> run s acts = Some s' -> invariant s'.
Proof.
  revert s. induction acts as [|a acts IH]; intros s Hinv; simpl.
  - by intros [= <-].
  - destruct (step s a) as [s1|] eqn:Hstep; [|discriminate].
    apply IH. by apply (invariant_step s s1 a).
Qed.

(** Threads of which any two running ones are the same thread: at most one
    is running. *)
Lemma one_running (l : list thread_state) :
  (∀ i j, l !! i = Some Running -> l !! j = Some Running -> i = j) ->
  (length (filter (fun st => st = Running) l) ≤ 1)%nat.
Proof.
  induction l as [|st l IH]; intros Huniq; [simpl; lia|].
  destruct (decide (st = Running)) as [->|Hst].
  - rewrite filter_cons_True by reflexivity.
    assert (Hnone : filter (fun st => st = Running) l = []).
    { destruct (filter (fun st => st = Running) l) as [|x f] eqn:Hf;
        [reflexivity|].
      assert (Hx : x ∈ filter (fun st => st = Running) l)
        by (rewrite Hf; apply list_elem_of_here).
      apply list_elem_of_filter in Hx. destruct Hx as [-> Hx].
      apply list_elem_of_lookup in Hx. destruct Hx as [j Hj].
      specialize (Huniq 0%nat (S j) eq_refl Hj). discriminate. }
    rewrite Hnone. simpl. lia.
  - rewrite filter_cons_False by exact Hst. apply IH.
    intros i j Hi Hj. specialize (Huniq (S i) (S j) Hi Hj). lia.
Qed.

Lemma run_app (s : state) (acts acts' : list action) :
  run s (acts ++ acts')
  = match run s acts with
    | Some s' => run s' acts'
    | None => None
    end.
Proof.
  revert s. induction acts as [|a acts IH]; intros s; simpl; [reflexivity|].
  destruct (step s a); [apply IH | reflexivity].
Qed.

(** The steps of a call that runs alone. *)
Lemma start_steps (s s' : state) :
  start_telegram_poller s = Some s' ->
  ∃ acts, run s acts = Some s'.
Proof.
  unfold start_telegram_poller.
  set (c := length (calls s)).
  destruct (run s [Call; Acquire c; Check c]) as [s1|] eqn:H1; [|discriminate].
  destruct (calls s1 !! c) as [[]|]; intros H2;
    first [ exists ([Call; Acquire c; Check c] ++ [Create c; Start c; Release c]);
            by rewrite run_app, H1
          | exists ([Call; Acquire c; Check c] ++ [Release c]);
            by rewrite run_app, H1 ].
Qed.

(** After a call that ran alone, the thread that [telegram_thread] names is
    running; and the call created no thread if there was a running one. *)
Lemma start_running (s s' : state) :
  start_telegram_poller s = Some s' ->
  (∃ t, telegram_thread s' = Some t ∧ threads s' !! t = Some Running)
  ∧ (Running ∈ threads s -> invariant s -> threads s' = threads s).
Proof.
  unfold start_telegram_poller. set (c := length (calls s)).
  assert (Hc : (c < length (calls s ++ [AtLock]))%nat).
  { rewrite length_app. simpl. unfold c. lia. }
  cbn [run step calls threads telegram_thread telegram_lock].
  rewrite list_lookup_middle by reflexivity.
  destruct (telegram_lock s) eqn:Hlock; [discriminate|].
  cbn [run step calls threads telegram_thread telegram_lock].
  rewrite list_lookup_insert_eq by exact Hc.
  unfold at_pc, is_alive. cbn [calls threads telegram_thread telegram_lock].
  rewrite list_lookup_insert_eq by (by rewrite length_insert).
  match goal with
  | |- context [if ?b then AtRelease else AtCreate] => destruct b eqn:Halive
  end.
  - cbn [run step calls threads telegram_thread telegram_lock].
    intros [= <-]. cbn [threads telegram_thread]. split; [|reflexivity].
    destruct (telegram_thread s) as [t|]; [|discriminate].
    exists t. split; [reflexivity|].
    by destruct (threads s !! t) as [[]|].
  - cbn [run step calls threads telegram_thread telegram_lock].
    rewrite list_lookup_insert_eq by (by rewrite !length_insert).
    cbn [calls threads telegram_thread telegram_lock].
    rewrite list_lookup_insert_eq by (by rewrite !length_insert).
    intros [= <-]. cbn [threads telegram_thread]. split.
    + exists (length (threads s)). split; [reflexivity|].
      apply list_lookup_insert_eq. rewrite length_app. simpl. lia.
    + intros Hin Hinv. exfalso.
      apply list_elem_of_lookup in Hin. destruct Hin as [t Ht].
      rewrite (inv_current s Hinv t Ht), Ht in Halive. discriminate.
Qed.

(** C9: whatever calls of [start_telegram_poller] are made, and however
    their steps and the ends of threads are interleaved, at most one poller
    thread is running in the state reached.  A call that then runs alone
    leaves exactly one thread running, and a second call right after it
    creates no thread. *)
Theorem at_most_one_poller (acts : list action) (s : state) :
  run initial acts = Some s ->
  (length (running s) ≤ 1)%nat
  ∧ ∀ s', start_telegram_poller s = Some s' ->
          length (running s') = 1%nat
          ∧ ∀ s'', start_telegram_poller s' = Some s'' ->
                   threads s'' = threads s'
                   ∧ length (running s'') = 1%nat.
Proof.
  assert (Hmost : ∀ st, invariant st -> (length (running st) ≤ 1)%nat).
  { intros st Hinv. apply one_running. intros i j Hi Hj.
    apply (inv_current st Hinv) in Hi, Hj. congruence. }
  assert (Hone : ∀ st st', invariant st -> start_telegram_poller st = Some st' ->
                           invariant st' ∧ Running ∈ threads st'
                           ∧ length (running st') = 1%nat).
  { intros st st' Hinv Hst.
    destruct (start_steps st st' Hst) as [acts' Hacts'].
    pose proof (invariant_run acts' st st' Hinv Hacts') as Hinv'.
    destruct (start_running st st' Hst) as [(t & _ & Ht) _].
    assert (Hin : Running ∈ threads st')
      by (apply list_elem_of_lookup; by exists t).
    do 2 (split; [assumption|]).
    pose proof (Hmost st' Hinv') as Hle.
    assert (Hrun : Running ∈ running st')
      by (apply list_elem_of_filter; by split).
    unfold running in *.
    destruct (filter (fun st0 => st0 = Running) (threads st')) as [|x [|y l]];
      [by apply elem_of_nil in Hrun | reflexivity | simpl in Hle; lia]. }
  intros Hrun.
  pose proof (invariant_run acts initial s invariant_initial Hrun) as Hinv.
  split; [by apply Hmost|].
  intros s' Hs'. destruct (Hone s s' Hinv Hs') as (Hinv' & Hin' & Hone').
  split; [exact Hone'|].
  intros s'' Hs''.
  destruct (start_running s' s'' Hs'') as [_ Hsame].
  specialize (Hsame Hin' Hinv').
  split; [exact Hsame|]. unfold running. rewrite Hsame. exact Hone'.
Qed.

(** Two calls in immediate succession, and two calls of which the second
    arrives while the first is inside the lock: one thread is running. *)
Lemma at_most_one_poller_witness :
  (∃ s, run initial (Call :: starting_call 0 ++ Call :: returning_call 1)
        = Some s
        ∧ length (running s) = 1%nat ∧ (length (running s) ≤ 1)%nat)
  ∧ (∃ s, run initial
            ([Call; Acquire 0; Check 0; Call; Create 0; Start 0; Release 0]
             ++ returning_call 1)
          = Some s
          ∧ length (running s) = 1%nat ∧ (length (running s) ≤ 1)%nat)
  ∧ (∃ s' s'', start_telegram_poller initial = Some s'
               ∧ start_telegram_poller s' = Some s''
               ∧ threads s'' = threads s'
               ∧ length (running s'') = 1%nat).
Proof.
  split; [|split].
  - eexists. split; [vm_compute; reflexivity|]. split; [reflexivity|].
    apply (at_most_one_poller
             (Call :: starting_call 0 ++ Call :: returning_call 1)).
    vm_compute. reflexivity.
  - eexists. split; [vm_compute; reflexivity|]. split; [reflexivity|].
    apply (at_most_one_poller
             ([Call; Acquire 0; Check 0; Call; Create 0; Start 0; Release 0]
              ++ returning_call 1)).
    vm_compute. reflexivity.
  - eexists. eexists. split; [vm_compute; reflexivity|].
    split; [vm_compute; reflexivity|].
    refine (proj2 (proj2 (at_most_one_poller [] initial eq_refl) _ _) _ _);
      vm_compute; reflexivity.
Defined.

End PollerFacts.

(** ** More about strings and numbers *)

Module StringMore.
Import PyStr PyStrFacts Notions.

Lemma lstrip_head (s : pystr) :
  lstrip s = [] ∨ ∃ c r, lstrip s = c :: r ∧ isspace c = false.
Proof.
  induction s as [|c s IH]; [by left|]. simpl.
  destruct (isspace c) eqn:Hc; [exact IH|]. right. by exists c, s.
Qed.

Lemma rstrip_idem (s : pystr) : rstrip (rstrip s) = rstrip s.
Proof.
  induction s as [|c s IH]; [reflexivity|]. simpl.
  destruct (rstrip s) as [|d r] eqn:Hr.
  - destruct (isspace c) eqn:Hc; [reflexivity|]. simpl. by rewrite Hc.
  - change (rstrip (c :: d :: r) = c :: d :: r).
    cbn [rstrip] in IH |- *. cbn [rstrip]. fold (rstrip (d :: r)).
    by rewrite IH.
Qed.

Lemma rstrip_keeps_head (c : N) (s : pystr) :
  isspace c = false -> ∃ r, rstrip (c :: s) = c :: r.
Proof.
  intros Hc. simpl. destruct (rstrip s) as [|d r].
  - rewrite Hc. by exists [].
  - by exists (d :: r).
Qed.

(** [s.strip().strip()] is [s.strip()]. *)
Lemma strip_idem (s : pystr) : strip (strip s) = strip s.
Proof.
  unfold strip.
  destruct (lstrip_head s) as [->|(c & r & -> & Hc)]; [reflexivity|].
  destruct (rstrip_keeps_head c r Hc) as [r' Hr]. rewrite Hr.
  rewrite <- Hr at 2.
  assert (Hl : lstrip (c :: r') = c :: r') by (simpl; by rewrite Hc).
  rewrite Hl, <- Hr. apply rstrip_idem.
Qed.

Lemma lstrip_all_space (s : pystr) :
  Forall (fun c => isspace c = true) s -> lstrip s = [].
Proof.
  induction 1 as [|c s Hc _ IH]; [reflexivity|]. simpl. by rewrite Hc.
Qed.

Lemma strip_all_space (s : pystr) :
  Forall (fun c => isspace c = true) s -> strip s = [].
Proof. intros H. unfold strip. by rewrite lstrip_all_space. Qed.

Lemma strip_token (t : pystr) : is_token t -> strip t = t.
Proof.
  intros Ht. unfold strip.
  rewrite <- (app_nil_r t) at 1. rewrite lstrip_token_app by exact Ht.
  rewrite app_nil_r. by apply rstrip_token.
Qed.

Lemma split_from_token (tok t s : pystr) :
  Forall (fun c => isspace c = false) t ->
  split_from tok (t ++ s) = split_from (tok ++ t) s.
Proof.
  intros Ht. revert tok. induction Ht as [|c t Hc _ IH]; intros tok.
  - by rewrite app_nil_r.
  - simpl. rewrite Hc, IH, <- app_assoc. reflexivity.
Qed.

Lemma split_from_end (t : pystr) : t ≠ [] -> split_from t [] = [t].
Proof. by destruct t. Qed.

Lemma split_from_space (t s : pystr) (c : N) :
  t ≠ [] -> isspace c = true -> split_from t (c :: s) = t :: split_from [] s.
Proof. intros Ht Hc. simpl. rewrite Hc. by destruct t. Qed.

(** Tokens joined by single spaces are split into themselves. *)
Lemma split_join_tokens (l : list pystr) :
  Forall is_token l -> split (join (py " ") l) = l.
Proof.
  unfold split. induction 1 as [|t l [Hne Ht] Hl IH]; [reflexivity|].
  destruct l as [|u l'].
  - cbn [join]. rewrite <- (app_nil_r t) at 1.
    rewrite split_from_token by exact Ht. by apply split_from_end.
  - rewrite join_cons_cons, split_from_token by exact Ht.
    change (py " ") with [32%N] at 1. cbn [app].
    rewrite split_from_space by done. by rewrite IH.
Qed.

(** *** [int(str(z))] *)

Lemma uint_digits_ascii (d : Decimal.uint) : ascii_digits (uint_digits d).
Proof. induction d; constructor; try assumption; lia. Qed.

Lemma ascii_digit_not_space (c : N) : (48 <= c <= 57)%N -> isspace c = false.
Proof.
  intros H. unfold isspace.
  rewrite (proj2 (N.leb_gt c 13)), (proj2 (N.leb_gt c 32)),
    (proj2 (N.leb_gt 8192 c)) by lia.
  repeat rewrite (proj2 (N.eqb_neq c _)) by lia.
  by rewrite !andb_false_r.
Qed.

Lemma scan_uint_digits (d : Decimal.uint) :
  scan_digits (uint_digits d) = (uint_values d, []).
Proof.
  induction d as [|d IH|d IH|d IH|d IH|d IH|d IH|d IH|d IH|d IH|d IH];
    [reflexivity|..];
    cbn [uint_digits uint_values scan_digits];
    (match goal with
     | |- context [digit_value ?c] =>
       change (digit_value c) with (Some (c - 48)%N)
     end);
    (destruct (uint_digits d) as [|u r] eqn:Hd;
      [destruct d; try discriminate Hd; reflexivity|]);
    (assert (Hu : (u =? 95)%N = false)
      by (pose proof (uint_digits_ascii d) as Ha; rewrite Hd in Ha;
          apply Forall_cons in Ha; destruct Ha as [Ha _];
          apply N.eqb_neq; lia));
    rewrite Hu, IH; reflexivity.
Qed.

Lemma digits_value_acc (d : Decimal.uint) (acc : positive) :
  fold_left (fun a v => (a * 10 + v)%N) (uint_values d) (Npos acc)
  = Npos (Pos.of_uint_acc d acc).
Proof.
  revert acc. induction d; intros acc; cbn [uint_values fold_left Pos.of_uint_acc];
    [reflexivity|..];
    (match goal with
     | |- fold_left _ _ ?x = _ =>
       match goal with
       | |- _ = Npos (Pos.of_uint_acc _ ?y) =>
         replace x with (Npos y) by lia
       end
     end); apply IHd.
Qed.

Lemma digits_value_uint (d : Decimal.uint) :
  digits_value (uint_values d) = N.of_uint d.
Proof.
  unfold digits_value, N.of_uint.
  induction d; cbn [uint_values fold_left Pos.of_uint];
    [reflexivity | exact IHd | ..];
    (match goal with
     | |- fold_left _ _ ?x = _ => change x with (Npos 1) || idtac
     end);
    first [ apply (digits_value_acc d 1) | apply (digits_value_acc d 2)
          | apply (digits_value_acc d 3) | apply (digits_value_acc d 4)
          | apply (digits_value_acc d 5) | apply (digits_value_acc d 6)
          | apply (digits_value_acc d 7) | apply (digits_value_acc d 8)
          | apply (digits_value_acc d 9) ].
Qed.

Lemma str_of_N_token (n : N) : is_token (str_of_N n).
Proof.
  split.
  - unfold str_of_N. destruct n as [|p]; [discriminate|].
    intros H. assert (Hv : uint_values (N.to_uint (Npos p)) = []).
    { destruct (N.to_uint (Npos p)); try discriminate H; reflexivity. }
    pose proof (digits_value_uint (N.to_uint (Npos p))) as Hd.
    rewrite Hv, DecimalN.Unsigned.of_to in Hd. discriminate Hd.
  - eapply Forall_impl; [apply uint_digits_ascii|].
    intros c Hc. by apply ascii_digit_not_space.
Qed.

Lemma scan_str_of_N (n : N) :
  ∃ v vs, scan_digits (str_of_N n) = (v :: vs, [])
          ∧ digits_value (v :: vs) = n.
Proof.
  unfold str_of_N. rewrite scan_uint_digits.
  pose proof (digits_value_uint (N.to_uint n)) as Hd.
  rewrite DecimalN.Unsigned.of_to in Hd.
  destruct (uint_values (N.to_uint n)) as [|v vs] eqn:Hv.
  - destruct (str_of_N_token n) as [Hne _]. exfalso. apply Hne.
    unfold str_of_N. destruct (N.to_uint n); try discriminate Hv. reflexivity.
  - by exists v, vs.
Qed.

(** [int(str(z)) == z] *)
Lemma py_int_str (z : Z) : py_int (str_of_Z z) = Some z.
Proof.
  assert (Hhead : ∀ n, ∃ c r, str_of_N n = c :: r ∧ (48 <= c <= 57)%N).
  { intros n. destruct (str_of_N_token n) as [Hne _].
    pose proof (uint_digits_ascii (N.to_uint n)) as Ha.
    fold (str_of_N n) in Ha. destruct (str_of_N n) as [|c r]; [done|].
    apply Forall_cons in Ha. destruct Ha as [Hc _]. by exists c, r. }
  unfold py_int. destruct z as [|p|p].
  - reflexivity.
  - unfold str_of_Z. rewrite strip_token by apply str_of_N_token.
    destruct (Hhead (Z.to_N (Zpos p))) as (c & r & Hs & Hc).
    destruct (scan_str_of_N (Z.to_N (Zpos p))) as (v & vs & Hscan & Hval).
    rewrite Hs in *.
    replace (c =? 45)%N with false by (symmetry; apply N.eqb_neq; lia).
    replace (c =? 43)%N with false by (symmetry; apply N.eqb_neq; lia).
    rewrite Hscan, Hval. reflexivity.
  - unfold str_of_Z.
    assert (Ht : is_token (45%N :: str_of_N (Npos p))).
    { destruct (str_of_N_token (Npos p)) as [_ Hws].
      split; [discriminate|]. by constructor. }
    rewrite strip_token by exact Ht.
    destruct (scan_str_of_N (Npos p)) as (v & vs & Hscan & Hval).
    change (45 =? 45)%N with true. cbv iota.
    rewrite Hscan, Hval. reflexivity.
Qed.

End StringMore.

(** ** More about the command parser *)

Module ParserMore.
Import PyStr PyFloat Ledger Samples PyStrFacts ParserFacts StringMore Notions.

Lemma strip_nil_tokens (text : pystr) : strip text = [] -> tokens text = [].
Proof. intros H. unfold tokens. by rewrite H. Qed.

Lemma parse_no_tokens (today : date) (text : pystr) :
  tokens text = [] ->
  parse_telegram_transaction today text = (None, msg_empty).
Proof.
  intros H. unfold parse_telegram_transaction.
  destruct (decide _); [reflexivity|]. by rewrite H.
Qed.

(** X1: a message that is empty or all whitespace, of any script, and a
    message that is only the slash, with or without whitespace around
    it, get the answer that the message is empty. *)
Theorem parse_blank (today : date) (text : pystr) :
  Forall (fun c => isspace c = true) text ∨ strip text = py "/" ->
  parse_telegram_transaction today text = (None, msg_empty).
Proof.
  intros [Hws|Hslash]; apply parse_no_tokens.
  - by apply strip_nil_tokens, strip_all_space.
  - unfold tokens. by rewrite Hslash.
Qed.

Lemma parse_blank_witness :
  parse_telegram_transaction a_day (py " 　 ") = (None, msg_empty)
  ∧ parse_telegram_transaction a_day (py "  / ") = (None, msg_empty).
Proof.
  split.
  - apply (parse_blank a_day (py " 　 ")). left. vm_compute.
    repeat constructor.
  - apply (parse_blank a_day (py "  / ")). right. vm_compute. reflexivity.
Defined.

(** X2: the answer of the parser depends on the message through its tokens
    only: two messages with the same tokens, whatever the whitespace
    between and around them and with or without the slash in front, get
    the same answer. *)
Theorem parse_by_tokens (today : date) (text text' : pystr) :
  tokens text = tokens text' ->
  parse_telegram_transaction today text
  = parse_telegram_transaction today text'.
Proof.
  intros Htok.
  destruct (tokens text') as [|p0 rest] eqn:H'.
  - by rewrite !parse_no_tokens.
  - unfold parse_telegram_transaction.
    destruct (decide (strip text = [])) as [Hs|_].
    { by apply tokens_cons_strip in Htok. }
    destruct (decide (strip text' = [])) as [Hs|_].
    { by apply tokens_cons_strip in H'. }
    by rewrite Htok, H'.
Qed.

Lemma parse_by_tokens_witness :
  parse_telegram_transaction a_day (py "  /Expense   32.5　餐饮	午饭 ")
  = parse_telegram_transaction a_day (py "Expense 32.5 餐饮 午饭").
Proof.
  apply (parse_by_tokens a_day). vm_compute. reflexivity.
Defined.

Lemma parse_errors_in :
  msg_empty ∈ parse_errors ∧ msg_format_expense ∈ parse_errors
  ∧ msg_format_add ∈ parse_errors ∧ msg_unsupported ∈ parse_errors
  ∧ msg_not_number ∈ parse_errors ∧ msg_negative ∈ parse_errors
  ∧ msg_bad_category ∈ parse_errors.
Proof.
  unfold parse_errors.
  split; [apply list_elem_of_here|].
  split; [do 1 apply list_elem_of_further; apply list_elem_of_here|].
  split; [do 2 apply list_elem_of_further; apply list_elem_of_here|].
  split; [do 3 apply list_elem_of_further; apply list_elem_of_here|].
  split; [do 4 apply list_elem_of_further; apply list_elem_of_here|].
  split; [do 5 apply list_elem_of_further; apply list_elem_of_here|].
  do 6 apply list_elem_of_further; apply list_elem_of_here.
Qed.

Lemma error_shaped (err : pystr) :
  err ∈ parse_errors -> well_shaped (None, err).
Proof. intros H. right. right. by exists err. Qed.

Lemma parse_typed_shape (today : date) (cmd : pystr) (parts : list pystr) :
  well_shaped (parse_typed today cmd parts).
Proof.
  destruct parse_errors_in as (_ & _ & _ & H3 & H4 & H5 & H6).
  unfold parse_typed.
  destruct (dict_get type_map cmd) as [[|c ty]|];
    [exact (error_shaped _ H3) | | exact (error_shaped _ H3)].
  destruct (py_float (nth 1 parts [])) as [amount|];
    [|exact (error_shaped _ H4)].
  destruct (lt amount zero); [exact (error_shaped _ H5)|].
  destruct (decide (nth 2 parts [] ∈ ALLOWED_CATEGORIES));
    [|exact (error_shaped _ H6)].
  right. left. eexists. reflexivity.
Qed.

Lemma parse_shaped (today : date) (text : pystr) :
  well_shaped (parse_telegram_transaction today text).
Proof.
  destruct parse_errors_in as (H0 & H1 & H2 & _).
  unfold parse_telegram_transaction.
  destruct (decide (strip text = [])); [exact (error_shaped _ H0)|].
  destruct (tokens text) as [|p0 rest]; [exact (error_shaped _ H0)|].
  destruct (decide (lower p0 ∈ [py "help"; py "start"]));
    [left; reflexivity|].
  destruct (length (p0 :: rest) <? 3)%nat; [exact (error_shaped _ H1)|].
  destruct (decide (lower p0 = py "add")); [|apply parse_typed_shape].
  destruct (length (p0 :: rest) <? 4)%nat; [exact (error_shaped _ H2)|].
  apply parse_typed_shape.
Qed.

Lemma parse_errors_nonempty : Forall (fun err => err ≠ []) parse_errors.
Proof.
  unfold parse_errors.
  repeat (constructor; [vm_compute; discriminate|]). constructor.
Qed.

(** X3: the parser answers in one of three ways: the help marker with no
    error, a transaction with no error, or no command with one of seven
    messages, none of them empty; never a command together with an error,
    never nothing at all. *)
Theorem parse_result_shape (today : date) (text : pystr) :
  well_shaped (parse_telegram_transaction today text)
  ∧ Forall (fun err => err ≠ []) parse_errors.
Proof. split; [apply parse_shaped | apply parse_errors_nonempty]. Qed.

(** X4: the parser answers with the help marker exactly for the messages
    whose first token, lower-cased, is help or start, whatever follows
    it. *)
Theorem parse_help_iff (today : date) (text err : pystr) :
  parse_telegram_transaction today text = (Some Help, err)
  ↔ err = [] ∧ lower (hd [] (tokens text)) ∈ [py "help"; py "start"].
Proof.
  assert (Hnil : ([] : pystr) ∉ [py "help"; py "start"]).
  { vm_compute. intros H.
    repeat (apply elem_of_cons in H; destruct H as [H|H]; [discriminate H|]).
    apply elem_of_nil in H. destruct H. }
  unfold parse_telegram_transaction.
  destruct (decide (strip text = [])) as [Hs|Hs].
  { rewrite (strip_nil_tokens text Hs). split; [discriminate|].
    intros [_ H]. by apply Hnil in H. }
  destruct (tokens text) as [|p0 rest] eqn:Htok.
  { split; [discriminate|]. intros [_ H]. by apply Hnil in H. }
  cbn [hd].
  destruct (decide (lower p0 ∈ [py "help"; py "start"])) as [Hin|Hout].
  { split; [by intros [= <-] | by intros [-> _]]. }
  split; [|intros [_ H]; contradiction].
  destruct (length (p0 :: rest) <? 3)%nat; [discriminate|].
  destruct (decide (lower p0 = py "add")).
  - destruct (length (p0 :: rest) <? 4)%nat; [discriminate|].
    intros H. by apply parse_typed_not_Help in H.
  - intros H. by apply parse_typed_not_Help in H.
Qed.

Lemma parse_help_iff_witness :
  parse_telegram_transaction a_day (py "/START now please") = (Some Help, []).
Proof.
  apply (proj2 (parse_help_iff a_day (py "/START now please") [])).
  split; [reflexivity|]. vm_compute.
  apply list_elem_of_further, list_elem_of_here.
Defined.

Lemma note_of_tokens (toks : list pystr) :
  Forall is_token toks ->
  (if (3 <? length toks)%nat
   then strip (join (py " ") (drop 3 toks)) else [])
  = join (py " ") (drop 3 toks).
Proof.
  intros Htoks. destruct (3 <? length toks)%nat eqn:H3.
  - apply strip_join_tokens. by apply Forall_drop_tokens.
  - apply Nat.ltb_ge in H3. by rewrite drop_ge.
Qed.

Lemma command_tokens_are_tokens (text : pystr) :
  Forall is_token (command_tokens text).
Proof.
  unfold command_tokens.
  destruct (decide _); [apply Forall_tail_tokens|]; apply tokens_are_tokens.
Qed.

(** X5: the parser returns a transaction exactly when the command tokens
    (the tokens, or those after a first token add) are three at least,
    the first is a key of the type table, the second is read by [float]
    as an amount that is not below zero, and the third is an allowed
    category; the transaction then has the type of the table, that
    amount, that category, the remaining tokens joined by single spaces
    as its note and the date of the clock. *)
Theorem parse_accepts_iff (today : date) (text : pystr) (d : tx_dict) :
  parse_telegram_transaction today text = (Some (Tx d), [])
  ↔ accepted today (command_tokens text) d.
Proof.
  split.
  - intros H. apply parse_Tx_typed in H. destruct H as [Hlen H].
    apply parse_typed_Tx in H.
    destruct H as (_ & Hty & Hf & Hlt & Hcat & Hin & Hnote & Hdate).
    rewrite (note_of_tokens _ (command_tokens_are_tokens text)) in Hnote.
    unfold accepted. auto 10.
  - intros (Hlen & Hty & Hf & Hlt & Hcat & Hin & Hnote & Hdate).
    assert (Htyped : parse_typed today (lower (hd [] (command_tokens text)))
                       (command_tokens text) = (Some (Tx d), [])).
    { unfold parse_typed. rewrite Hty.
      pose proof (type_map_entry _ _ Hty) as [Hne _].
      destruct (tx_type d) as [|c ty] eqn:Hd.
      { vm_compute in Hne.
        repeat (apply elem_of_cons in Hne; destruct Hne as [Hne|Hne];
                [discriminate Hne|]).
        apply elem_of_nil in Hne. destruct Hne. }
      rewrite Hf, Hlt, <- Hcat.
      destruct (decide (tx_category d ∈ ALLOWED_CATEGORIES)); [|contradiction].
      rewrite (note_of_tokens _ (command_tokens_are_tokens text)).
      rewrite <- Hnote, <- Hdate, <- Hd. by destruct d. }
    revert Hlen Hty Htyped. unfold command_tokens.
    destruct (tokens text) as [|p0 rest] eqn:Htok; [simpl; lia|].
    cbn [hd].
    destruct (decide (lower p0 = py "add")) as [Hadd|Hadd]; cbn [tail].
    + intros Hlen Hty Htyped.
      destruct rest as [|t rest']; [simpl in Hlen; lia|].
      rewrite (parse_add_typed today text p0 t rest' Htok Hadd)
        by (simpl in Hlen; lia).
      exact Htyped.
    + intros Hlen Hty Htyped.
      rewrite (parse_direct_typed today text p0 (tx_type d) rest Htok Hty)
        by (simpl in Hlen; lia).
      exact Htyped.
Qed.

Lemma parse_accepts_iff_witness :
  parse_telegram_transaction a_day (py "/add 支出 8 交通 地铁 回家")
  = (Some (Tx {| tx_type := py "expense";
                 tx_amount := S754_finite false 4503599627370496 (-49);
                 tx_category := py "交通"; tx_note := py "地铁 回家";
                 tx_happened_on := py "2024-03-07" |}), []).
Proof.
  apply (proj2 (parse_accepts_iff a_day (py "/add 支出 8 交通 地铁 回家") _)).
  unfold accepted. split; [vm_compute; lia|].
  do 4 (split; [vm_compute; reflexivity|]).
  split; [vm_compute; do 1 apply list_elem_of_further; apply list_elem_of_here|].
  split; vm_compute; reflexivity.
Defined.

End ParserMore.

(** ** More about the message handler *)

Module HandlerMore.
Import PyStr PyFloat Ledger Samples PyStrFacts ParserFacts StringMore
  ParserMore LoopFacts Notions.


Lemma handle_cases (clk : clock) (token : pystr) (m : message) (cid : Z)
    (w : world) :
  message_chat_id m = Some cid ->
  (asks_id m
   ∧ handle_telegram_message clk token m w
     = send_telegram_message token cid (msg_myid cid) w)
  ∨ (¬ asks_id m ∧ chat_denied w cid
     ∧ handle_telegram_message clk token m w
       = send_telegram_message token cid (msg_unauthorized cid) w)
  ∨ (¬ asks_id m ∧ ¬ chat_denied w cid
     ∧ handle_telegram_message clk token m w
       = handle_parsed clk token cid
           (parse_telegram_transaction (today clk) (default [] (msg_text m)))
           w).
Proof.
  intros Hid. unfold handle_telegram_message, asks_id, chat_denied.
  rewrite Hid.
  destruct (decide (lower (strip (default [] (msg_text m)))
                    ∈ [py "/myid"; py "myid"])) as [Hin|Hout];
    [by left|].
  right. unfold bind, get_config. cbv beta iota zeta.
  case_decide as Hd; [left | right].
  - split; [exact Hout|]. split; [exact Hd | reflexivity].
  - split; [exact Hout|]. split; [exact Hd | reflexivity].
Qed.

Lemma handle_parsed_Tx (clk : clock) (token : pystr) (cid : Z) (d : tx_dict)
    (w : world) :
  handle_parsed clk token cid (Some (Tx d), []) w
  = if row_accepted (row_of clk d)
    then send_telegram_message token cid (msg_recorded d)
           (inserted (row_of clk d) w)
    else Raised IntegrityError w.
Proof.
  unfold handle_parsed, bind, add_transaction_record. fold (row_of clk d).
  by destruct (row_accepted (row_of clk d)).
Qed.


Lemma handle_handled (clk : clock) (token : pystr) (m : message)
    (cid : Z) (w : world) :
  message_chat_id m = Some cid ->
  handled token cid w (handle_telegram_message clk token m w).
Proof.
  intros Hid. unfold handled.
  destruct (handle_cases clk token m cid w Hid)
    as [[_ ->]|[(_ & _ & ->)|(_ & _ & ->)]];
    [left; by eexists | left; by eexists |].
  destruct (parse_telegram_transaction (today clk) (default [] (msg_text m)))
    as [[[|d]|] [|e err]] eqn:Hp.
  - left. by eexists.
  - left. by eexists.
  - rewrite handle_parsed_Tx.
    destruct (row_accepted (row_of clk d)) eqn:Hr; [|done].
    right. by exists (row_of clk d), (msg_recorded d).
  - left. by eexists.
  - by apply parse_error_nonempty in Hp.
  - left. by eexists.
Qed.






End HandlerMore.

(** ** More about the polling loop *)

Module LoopMore.
Import PyStr PyFloat Ledger Samples PyStrFacts ParserFacts LoopFacts
  StringMore ParserMore HandlerMore Notions.

Lemma poll_once_eq (clk : clock) (remote : api) (w : world) :
  poll_once clk remote w
  = if decide (polling_enabled w)
    then match remote (request_token w) (request_offset w) with
         | Json true result =>
           for_each (process_update clk (request_token w)) result
             (requested w)
         | _ => Returned tt (emit (Sleep (poll_interval w)) (requested w))
         end
    else Returned tt (emit (Sleep 3) w).
Proof.
  unfold poll_once, bind, get_config. cbv beta iota zeta.
  unfold polling_enabled, request_token.
  case_decide as Hd.
  - rewrite decide_False; [reflexivity|].
    intros [He Ht]. destruct Hd as [Hd|Hd]; contradiction.
  - rewrite decide_True.
    + unfold telegram_api_get, requested, request_token, request_offset,
        cursor, sleep, poll_interval. cbv beta iota.
      destruct (remote _ _) as [| |[] result]; reflexivity.
    + split.
      * destruct (decide (default (py "0") (config w !! "telegram_enabled")
                          = py "1")) as [He|He]; [exact He|].
        destruct Hd. left. exact He.
      * intros Ht. destruct Hd. right. exact Ht.
Qed.

Lemma engine_refl (w : world) : engine_run w w.
Proof.
  split; [exists []; by rewrite app_nil_r|].
  split; [reflexivity|]. exists []. by rewrite app_nil_r.
Qed.

Lemma engine_trans (w1 w2 w3 : world) :
  engine_run w1 w2 -> engine_run w2 w3 -> engine_run w1 w3.
Proof.
  intros ([r1 Ht1] & Hc1 & [e1 Hl1]) ([r2 Ht2] & Hc2 & [e2 Hl2]).
  split; [exists (r1 ++ r2); by rewrite Ht2, Ht1, app_assoc|].
  split; [intros k Hk; by rewrite Hc2, Hc1|].
  exists (e1 ++ e2). by rewrite Hl2, Hl1, app_assoc.
Qed.

Lemma emit_engine (e : event) (w : world) : engine_run w (emit e w).
Proof.
  split; [exists []; by rewrite app_nil_r|].
  split; [reflexivity|]. by exists [e].
Qed.

Lemma inserted_engine (r : row) (w : world) : engine_run w (inserted r w).
Proof.
  split; [by exists [r]|]. split; [reflexivity|]. by exists [Insert r].
Qed.

Lemma cursor_set_engine (id : Z) (w : world) : engine_run w (cursor_set id w).
Proof.
  split; [exists []; by rewrite app_nil_r|].
  split; [|by eexists [_]].
  intros k Hk. unfold cursor_set. simpl. by apply lookup_insert_ne.
Qed.

Lemma handle_engine (clk : clock) (token : pystr) (m : message) (w : world) :
  engine_run w (world_of (handle_telegram_message clk token m w)).
Proof.
  destruct (message_chat_id m) as [cid|] eqn:Hid.
  - pose proof (handle_handled clk token m cid w Hid) as H.
    destruct (handle_telegram_message clk token m w) as [[] w'|e w'];
      simpl in *.
    + destruct H as [[text ->]|(r & text & _ & ->)]; [apply emit_engine|].
      eapply engine_trans; [apply inserted_engine | apply emit_engine].
    + destruct H as [_ ->]. apply engine_refl.
  - unfold handle_telegram_message. rewrite Hid. apply engine_refl.
Qed.

Lemma process_update_engine (clk : clock) (token : pystr) (u : update)
    (w : world) :
  engine_run w (world_of (process_update clk token u w)).
Proof.
  rewrite process_update_eq. cbv zeta.
  assert (H1 : engine_run w match update_id u with
                            | Some id => cursor_set id w
                            | None => w
                            end).
  { destruct (update_id u); [apply cursor_set_engine | apply engine_refl]. }
  destruct (upd_message u) as [m|]; [|exact H1].
  eapply engine_trans; [exact H1 | apply handle_engine].
Qed.

Lemma for_each_engine {A} (body : A -> M unit) (l : list A) :
  (∀ x w, engine_run w (world_of (body x w))) ->
  ∀ w, engine_run w (world_of (for_each body l w)).
Proof.
  intros Hbody. induction l as [|x l IH]; intros w; [apply engine_refl|].
  cbn [for_each]. unfold bind.
  pose proof (Hbody x w) as Hx.
  destruct (body x w) as [[] w1|e w1]; [|exact Hx].
  eapply engine_trans; [exact Hx | apply IH].
Qed.

Lemma poll_once_engine (clk : clock) (remote : api) (w : world) :
  engine_run w (world_of (poll_once clk remote w)).
Proof.
  rewrite poll_once_eq. case_decide; [|apply emit_engine].
  assert (Hw : engine_run w (emit (Sleep (poll_interval w)) (requested w))).
  { eapply engine_trans; apply emit_engine. }
  destruct (remote _ _) as [| |[] result]; try exact Hw.
  eapply engine_trans; [apply emit_engine|].
  apply for_each_engine. intros u w1. apply process_update_engine.
Qed.

(** X8: a turn makes no request exactly when the poller is switched off or
    has no token (none, or only white space): then all it does is to sleep
    three seconds. *)
Theorem idle_turn_iff (clk : clock) (remote : api) (w : world) :
  poll_once clk remote w = Returned tt (emit (Sleep 3) w)
  ↔ ¬ polling_enabled w.
Proof.
  split.
  - intros Hrun Hon.
    pose proof (poll_once_engine clk remote w) as He.
    rewrite poll_once_eq, decide_True in Hrun by exact Hon.
    assert (Hlog : ∃ evs, log (emit (Sleep 3) w)
                          = log (requested w) ++ evs).
    { destruct (remote _ _) as [| |[] result].
      - exists [Sleep (poll_interval w)].
        apply (f_equal world_of), (f_equal log) in Hrun.
        symmetry. exact Hrun.
      - exists [Sleep (poll_interval w)].
        apply (f_equal world_of), (f_equal log) in Hrun.
        symmetry. exact Hrun.
      - pose proof (for_each_engine (process_update clk (request_token w))
                      result (process_update_engine clk (request_token w))
                      (requested w)) as (_ & _ & [evs Hevs]).
        rewrite Hrun in Hevs. by exists evs.
      - exists [Sleep (poll_interval w)].
        apply (f_equal world_of), (f_equal log) in Hrun.
        symmetry. exact Hrun. }
    destruct Hlog as [evs Hlog]. simpl in Hlog.
    rewrite <- app_assoc in Hlog. apply app_inv_head in Hlog.
    discriminate Hlog.
  - intros Hoff. rewrite poll_once_eq. by rewrite decide_False.
Qed.

Lemma idle_turn_iff_witness :
  poll_once a_clock (fun _ _ => NotJSON) (world_allowing [])
  = Returned tt (emit (Sleep 3) (world_allowing [])).
Proof.
  refine (proj2 (idle_turn_iff a_clock (fun _ _ => NotJSON)
                   (world_allowing [])) _).
  intros [H _]. vm_compute in H. discriminate H.
Defined.









(** X11: however many turns the loop takes and whatever the remote end
    answers, the loop only adds rows at the end of the table (it never
    changes or removes one), and the only setting it ever writes is the
    cursor: the token, the switch, the allowed chat and the interval stay as
    they were. *)
Theorem loop_writes_only_cursor (clk : clock) (remotes : list api)
    (w : world) :
  engine_run w (world_of (telegram_poll_loop clk remotes w)).
Proof.
  unfold telegram_poll_loop. apply for_each_engine.
  intros remote w1. apply poll_once_engine.
Qed.

Lemma loop_writes_only_cursor_witness :
  config (world_of (telegram_poll_loop a_clock
                      [fun _ _ => Json true one_update] polling_world))
    !! "telegram_bot_token"
  = config polling_world !! "telegram_bot_token".
Proof.
  refine (proj1 (proj2 (loop_writes_only_cursor a_clock
                          [fun _ _ => Json true one_update] polling_world))
            "telegram_bot_token"%string _).
  discriminate.
Defined.

End LoopMore.

(** ** The web side *)

Module WebFacts.
Import PyStr PyFloat Ledger Samples PyTime Web PyStrFacts ParserFacts
  LoopFacts StringMore ParserMore HandlerMore LoopMore Notions.

Lemma login_required_out (v : view) (w : world) :
  login_required v false w = Returned (Redirect EpLogin None, false) w.
Proof. reflexivity. Qed.

(** X12: a browser that is not logged in and sends no valid password can
    change nothing: whatever it asks of the login, logout, settings and
    transaction views, in whatever order, the settings and the table are as
    before and the session is still not logged in. *)
Theorem locked_out (check : pystr -> pystr -> bool) (env : environ)
    (clk : clock) (rs : list request) (w : world) :
  Forall (no_valid_login check env) rs ->
  serve_all check env clk rs false w = (false, w).
Proof.
  induction 1 as [|r rs Hr _ IH]; [reflexivity|].
  cbn [serve_all].
  destruct r as [|password| | |form|form]; cbn [serve].
  - exact IH.
  - unfold login_post. cbn [no_valid_login] in Hr. rewrite Hr. exact IH.
  - exact IH.
  - unfold settings_get. rewrite login_required_out. exact IH.
  - unfold settings_post. rewrite login_required_out. exact IH.
  - unfold add_transaction. rewrite login_required_out. exact IH.
Qed.

Lemma locked_out_witness :
  serve_all (fun _ _ => false) bare_environ a_clock
    [PostSettings a_form; PostTransaction a_form; PostLogin (Some (py "x"));
     GetSettings] false polling_world
  = (false, polling_world).
Proof.
  apply (locked_out (fun _ _ => false) bare_environ a_clock).
  repeat constructor.
Defined.

Lemma saved_eq (form : gmap string pystr) (w : world) :
  settings_post form true w
  = Returned (Redirect EpSettings (Some (py "配置已保存。")), true)
      (saved form w).
Proof. reflexivity. Qed.

Lemma saved_config (form : gmap string pystr) (w : world) :
  config (saved form w)
  = <["telegram_allowed_chat_id"%string :=
        strip (field form "telegram_allowed_chat_id")]>
      (<["telegram_bot_token"%string :=
           strip (field form "telegram_bot_token")]>
         (<["telegram_enabled"%string :=
              if decide (form !! "telegram_enabled" = Some (py "on"))
              then py "1" else py "0"]> (config w))).
Proof. reflexivity. Qed.

Lemma saved_allowed (form : gmap string pystr) (w : world) :
  config (saved form w) !! "telegram_allowed_chat_id"
  = Some (strip (field form "telegram_allowed_chat_id")).
Proof. rewrite saved_config. apply lookup_insert_eq. Qed.

Lemma saved_token (form : gmap string pystr) (w : world) :
  config (saved form w) !! "telegram_bot_token"
  = Some (strip (field form "telegram_bot_token")).
Proof.
  rewrite saved_config, lookup_insert_ne by discriminate.
  apply lookup_insert_eq.
Qed.

Lemma saved_enabled (form : gmap string pystr) (w : world) :
  config (saved form w) !! "telegram_enabled"
  = Some (if decide (form !! "telegram_enabled" = Some (py "on"))
          then py "1" else py "0").
Proof.
  rewrite saved_config, !lookup_insert_ne by discriminate.
  apply lookup_insert_eq.
Qed.

Lemma saved_other (form : gmap string pystr) (w : world) (k : string) :
  k ∉ ["telegram_enabled"; "telegram_bot_token";
       "telegram_allowed_chat_id"]%string ->
  config (saved form w) !! k = config w !! k.
Proof.
  intros Hk. rewrite !not_elem_of_cons in Hk.
  destruct Hk as (H1 & H2 & H3 & _).
  rewrite saved_config, !lookup_insert_ne by congruence. reflexivity.
Qed.

(** Closes a goal [k ∉ [k1; k2; k3]] for literal keys. *)
Ltac other_key :=
  rewrite !not_elem_of_cons; repeat split; try discriminate;
  apply not_elem_of_nil.

Lemma enabled_is_on (form : gmap string pystr) :
  (if decide (form !! "telegram_enabled" = Some (py "on"))
   then py "1" else py "0") = py "1"
  ↔ form !! "telegram_enabled" = Some (py "on").
Proof.
  case_decide as H; [done|]. split; [|done].
  intros H1. vm_compute in H1. discriminate H1.
Qed.

(** X13: what the settings page saves is what it shows next: the box is
    shown checked exactly when it was sent as "on", the token and the chat
    id are shown trimmed of surrounding white space.  Saving changes no
    other setting (the cursor and the interval stay) and no transaction. *)
Theorem settings_round_trip (form : gmap string pystr) (w : world) :
  settings_post form true w
  = Returned (Redirect EpSettings (Some (py "配置已保存。")), true)
      (saved form w)
  ∧ settings_get true (saved form w)
    = Returned
        (SettingsPage
           {| page_enabled :=
                bool_decide (form !! "telegram_enabled" = Some (py "on"));
              page_bot_token := strip (field form "telegram_bot_token");
              page_allowed_chat_id :=
                strip (field form "telegram_allowed_chat_id") |}, true)
        (saved form w)
  ∧ transactions (saved form w) = transactions w
  ∧ ∀ k : string,
      k ∉ ["telegram_enabled"; "telegram_bot_token";
           "telegram_allowed_chat_id"]%string ->
      config (saved form w) !! k = config w !! k.
Proof.
  split; [reflexivity|]. split; [|split; [reflexivity | apply saved_other]].
  unfold settings_get, login_required, bind, get_config, ret.
  rewrite saved_enabled, saved_token, saved_allowed.
  cbn [default from_option id].
  f_equal. f_equal. f_equal. f_equal.
  apply bool_decide_ext, enabled_is_on.
Qed.

Lemma settings_round_trip_witness :
  config (saved a_form polling_world) !! "telegram_poll_interval"
  = config polling_world !! "telegram_poll_interval".
Proof.
  refine (proj2 (proj2 (proj2 (settings_round_trip a_form polling_world)))
            "telegram_poll_interval"%string _).
  other_key.
Defined.

Lemma str_of_Z_inj (a b : Z) : str_of_Z a = str_of_Z b -> a = b.
Proof.
  intros H. apply (f_equal py_int) in H. rewrite !py_int_str in H.
  by injection H.
Qed.

Lemma str_of_Z_nonempty (z : Z) : str_of_Z z ≠ [].
Proof.
  intros H. apply (f_equal py_int) in H. rewrite py_int_str in H.
  vm_compute in H. discriminate H.
Qed.

Lemma chat_denied_saved (form : gmap string pystr) (w : world) (cid : Z) :
  chat_denied (saved form w) cid
  ↔ strip (field form "telegram_allowed_chat_id") ≠ []
    ∧ str_of_Z cid ≠ strip (field form "telegram_allowed_chat_id").
Proof.
  unfold chat_denied. rewrite saved_allowed. cbn [default from_option id].
  by rewrite strip_idem.
Qed.

(** X14: the chat id saved on the settings page is the one the handler's
    gate compares with.  When the field holds the id of one chat, with or
    without white space around it, the handler denies every other chat and
    only those; when the field is blank it denies none. *)
Theorem saved_chat_id_gates (form : gmap string pystr) (w : world)
    (owner cid : Z) :
  (strip (field form "telegram_allowed_chat_id") = str_of_Z owner ->
   chat_denied (saved form w) cid ↔ cid ≠ owner)
  ∧ (strip (field form "telegram_allowed_chat_id") = [] ->
     ¬ chat_denied (saved form w) cid).
Proof.
  split; intros Hv; rewrite chat_denied_saved, Hv.
  - split.
    + intros [_ Hne] ->. by destruct Hne.
    + intros Hne. split; [apply str_of_Z_nonempty|].
      intros H. by apply str_of_Z_inj in H.
  - by intros [H _].
Qed.

Lemma saved_chat_id_gates_witness :
  chat_denied (saved a_form polling_world) 6.
Proof.
  refine (proj2 (proj1 (saved_chat_id_gates a_form polling_world 5 6) _) _).
  - vm_compute. reflexivity.
  - discriminate.
Defined.

Lemma request_token_saved (form : gmap string pystr) (w : world) :
  request_token (saved form w) = strip (field form "telegram_bot_token").
Proof.
  unfold request_token. rewrite saved_token. cbn [default from_option id].
  apply strip_idem.
Qed.

Lemma polling_enabled_saved (form : gmap string pystr) (w : world) :
  polling_enabled (saved form w)
  ↔ form !! "telegram_enabled" = Some (py "on")
    ∧ strip (field form "telegram_bot_token") ≠ [].
Proof.
  unfold polling_enabled. rewrite request_token_saved, saved_enabled.
  cbn [default from_option id]. by rewrite enabled_is_on.
Qed.

(** X15: the settings page switches the poller.  After a save the next turn
    of the loop makes a request exactly when the box was sent as "on" and
    the token field is not blank; the request then carries the trimmed
    token and the offset it had before the save, and a failed fetch waits
    as long as before.  Otherwise the turn only sleeps three seconds. *)
Theorem saved_settings_switch_poller (clk : clock) (remote : api)
    (form : gmap string pystr) (w : world) :
  let on := form !! "telegram_enabled" = Some (py "on")
            ∧ strip (field form "telegram_bot_token") ≠ [] in
  (on ->
   ∃ evs,
     log (world_of (poll_once clk remote (saved form w)))
     = log (saved form w)
       ++ GetUpdates (strip (field form "telegram_bot_token"))
            (request_offset w) :: evs)
  ∧ (¬ on ->
     poll_once clk remote (saved form w)
     = Returned tt (emit (Sleep 3) (saved form w)))
  ∧ poll_interval (saved form w) = poll_interval w.
Proof.
  cbv zeta. split; [|split].
  - intros Hon. apply (polling_enabled_saved form w) in Hon.
    rewrite poll_once_eq, decide_True by exact Hon.
    assert (Hreq : requested (saved form w)
                   = emit (GetUpdates
                             (strip (field form "telegram_bot_token"))
                             (request_offset w)) (saved form w)).
    { unfold requested. rewrite request_token_saved.
      unfold request_offset, cursor. by rewrite saved_other by other_key. }
    destruct (remote _ _) as [| |[] result].
    + exists [Sleep (poll_interval (saved form w))].
      rewrite Hreq. simpl. by rewrite <- app_assoc.
    + exists [Sleep (poll_interval (saved form w))].
      rewrite Hreq. simpl. by rewrite <- app_assoc.
    + pose proof (for_each_engine
                    (process_update clk (request_token (saved form w)))
                    result
                    (process_update_engine clk
                       (request_token (saved form w)))
                    (requested (saved form w))) as (_ & _ & [evs Hevs]).
      exists evs. rewrite Hevs, Hreq. simpl. by rewrite <- app_assoc.
    + exists [Sleep (poll_interval (saved form w))].
      rewrite Hreq. simpl. by rewrite <- app_assoc.
  - intros Hoff. rewrite poll_once_eq, decide_False; [reflexivity|].
    by rewrite polling_enabled_saved.
  - unfold poll_interval. by rewrite saved_other by other_key.
Qed.

Lemma saved_settings_switch_poller_witness :
  ∃ evs,
    log (world_of (poll_once a_clock (fun _ _ => NotJSON)
                     (saved a_form polling_world)))
    = log (saved a_form polling_world)
      ++ GetUpdates (strip (field a_form "telegram_bot_token"))
           (request_offset polling_world) :: evs.
Proof.
  refine (proj1 (saved_settings_switch_poller a_clock (fun _ _ => NotJSON)
                   a_form polling_world) _).
  split; [vm_compute; reflexivity | vm_compute; discriminate].
Defined.

Lemma empty_not_category : [] ∉ ALLOWED_CATEGORIES.
Proof.
  assert (Hb : bool_decide (([] : pystr) ∈ ALLOWED_CATEGORIES) = false)
    by (vm_compute; reflexivity).
  exact (proj1 (bool_decide_eq_false _) Hb).
Qed.

Lemma add_transaction_cases (clk : clock) (form : gmap string pystr)
    (w : world) :
  (∃ msg, msg ∈ form_errors
          ∧ (∀ amount, ¬ form_ok form amount)
          ∧ add_transaction clk form true w
            = Returned (Redirect EpIndex (Some msg), true) w)
  ∨ (∃ amount, form_ok form amount
               ∧ add_transaction clk form true w
                 = if row_accepted (form_row clk form amount)
                   then Returned (Redirect EpIndex None, true)
                          (inserted (form_row clk form amount) w)
                   else Raised IntegrityError w).
Proof.
  unfold add_transaction, login_required. cbv beta iota zeta.
  destruct (py_float (strip (field form "amount"))) as [amount|] eqn:Hf.
  2: { left. eexists. split; [apply list_elem_of_here|].
       split; [|reflexivity]. intros a (Ha & _). congruence. }
  case_decide as Hty.
  { left. eexists.
    split; [do 1 apply list_elem_of_further; apply list_elem_of_here|].
    split; [|reflexivity]. intros a (_ & Ha & _). contradiction. }
  destruct (lt amount zero) eqn:Hlt.
  { left. eexists.
    split; [do 2 apply list_elem_of_further; apply list_elem_of_here|].
    split; [|reflexivity]. intros a (Ha & _ & Hl & _). congruence. }
  case_decide as Hempty.
  { left. eexists.
    split; [do 3 apply list_elem_of_further; apply list_elem_of_here|].
    split; [|reflexivity]. intros a (_ & _ & _ & Hc & _).
    rewrite Hempty in Hc. by apply empty_not_category in Hc. }
  case_decide as Hcat.
  { left. eexists.
    split; [do 4 apply list_elem_of_further; apply list_elem_of_here|].
    split; [|reflexivity]. intros a (_ & _ & _ & Hc & _). contradiction. }
  destruct (strptime_ymd (strip (field form "happened_on"))) as [ymd|] eqn:Hd.
  2: { left. eexists.
       split; [do 5 apply list_elem_of_further; apply list_elem_of_here|].
       split; [|reflexivity]. intros a (_ & _ & _ & _ & Hs).
       rewrite Hd in Hs. by destruct Hs. }
  right. exists amount. split.
  - split; [exact Hf|]. split; [exact Hty|].
    split; [exact Hlt|]. split; [exact Hcat|].
    rewrite Hd. by eexists.
  - unfold bind, add_transaction_record. fold (form_row clk form amount).
    by destruct (row_accepted (form_row clk form amount)).
Qed.

Lemma accepted_ge (r : row) : row_accepted r = true -> ge (r_amount r) zero = true.
Proof. unfold row_accepted. by intros [_ H]%andb_prop. Qed.

Lemma refused_nan (clk : clock) (form : gmap string pystr)
    (amount : spec_float) :
  form_ok form amount ->
  row_accepted (form_row clk form amount) = true ↔ amount ≠ nan.
Proof.
  intros (_ & Hty & Hlt & _). unfold row_accepted. cbn [form_row r_type r_amount].
  rewrite bool_decide_eq_true_2 by exact Hty. cbn [andb].
  split.
  - intros Hge ->. vm_compute in Hge. discriminate Hge.
  - by apply not_lt_zero_ge.
Qed.

(** X16: the transaction form, sent by a session that is logged in, ends in
    one of three ways.  It is refused with one of six messages and nothing
    changes; or one row is added at the end of the table, made of the
    trimmed fields, whose type is income or expense, whose amount is at
    least zero, whose category is one of the allowed ones and whose date
    [strptime] accepts; or the amount is a NaN, the table refuses the row,
    [IntegrityError] is raised and nothing changes. *)
Theorem form_effects (clk : clock) (form : gmap string pystr) (w : world) :
  match add_transaction clk form true w with
  | Returned (rep, a) w' =>
    a = true
    ∧ ((∃ msg, rep = Redirect EpIndex (Some msg) ∧ msg ∈ form_errors
               ∧ w' = w)
       ∨ (∃ amount, rep = Redirect EpIndex None ∧ form_ok form amount
                    ∧ ge amount zero = true
                    ∧ w' = inserted (form_row clk form amount) w))
  | Raised e w' =>
    e = IntegrityError ∧ w' = w
    ∧ py_float (strip (field form "amount")) = Some nan
  end.
Proof.
  destruct (add_transaction_cases clk form w)
    as [(msg & Hin & _ & ->)|(amount & Hok & ->)].
  - split; [reflexivity|]. left. by exists msg.
  - destruct (row_accepted (form_row clk form amount)) eqn:Hr.
    + split; [reflexivity|]. right. exists amount.
      split; [reflexivity|]. split; [exact Hok|].
      split; [exact (accepted_ge _ Hr) | reflexivity].
    + split; [reflexivity|]. split; [reflexivity|].
      assert (Hnan : amount = nan ∨ amount ≠ nan)
        by (destruct amount; [right | right | left | right];
            (reflexivity || discriminate)).
      destruct Hnan as [->|Hn]; [exact (proj1 Hok)|].
      pose proof (proj2 (refused_nan clk form amount Hok) Hn) as Ha.
      congruence.
Qed.

(** X17: the transaction form is accepted, that is, answered with the plain
    redirection and recorded, exactly when the trimmed amount reads as a
    number that is neither negative nor a NaN, the trimmed type is income or
    expense, the trimmed category is one of the allowed ones, and the
    trimmed date is a date that [strptime] accepts in the format
    year-month-day. *)
Theorem form_accepted_iff (clk : clock) (form : gmap string pystr)
    (w w' : world) :
  add_transaction clk form true w
  = Returned (Redirect EpIndex None, true) w'
  ↔ ∃ amount, form_ok form amount ∧ amount ≠ nan
              ∧ w' = inserted (form_row clk form amount) w.
Proof.
  destruct (add_transaction_cases clk form w)
    as [(msg & _ & Hno & ->)|(amount & Hok & ->)].
  - split; [discriminate|]. intros (amount & Hok & _). by destruct (Hno amount).
  - pose proof (refused_nan clk form amount Hok) as Hnan.
    destruct (row_accepted (form_row clk form amount)).
    + split.
      * intros [= <-]. exists amount. split; [exact Hok|].
        split; [by apply Hnan | reflexivity].
      * intros (a & (Ha & _) & _ & ->).
        destruct Hok as (Hf & _). by replace a with amount by congruence.
    + split; [discriminate|].
      intros (a & (Ha & _) & Hn & _). destruct Hok as (Hf & _).
      replace a with amount in Hn by congruence.
      apply Hnan in Hn. discriminate Hn.
Qed.

Lemma form_accepted_iff_witness :
  add_transaction a_clock a_form true polling_world
  = Returned (Redirect EpIndex None, true)
      (inserted
         (form_row a_clock a_form (S754_finite false 7036874417766400 (-49)))
         polling_world).
Proof.
  refine (proj2 (form_accepted_iff a_clock a_form polling_world _) _).
  eexists. split; [|split; [|reflexivity]].
  - split; [vm_compute; reflexivity|].
    split; [apply list_elem_of_further, list_elem_of_here|].
    split; [vm_compute; reflexivity|].
    split; [apply list_elem_of_here|]. vm_compute. by eexists.
  - discriminate.
Defined.

Lemma digit_in_le (zeros : list N) (c v : N) :
  digit_in zeros c = Some v -> (v <= 9)%N.
Proof.
  induction zeros as [|z zs IH]; [discriminate|]. cbn [digit_in].
  destruct ((z <=? c)%N && (c <? z + 10)%N) eqn:Hz; [|exact IH].
  apply andb_prop in Hz. destruct Hz as [H1%N.leb_le H2%N.ltb_lt].
  intros [= <-]. lia.
Qed.

Lemma match_year_le (s r : pystr) (y : N) :
  match_year s = Some (y, r) -> (y <= 9999)%N.
Proof.
  unfold match_year. destruct s as [|a [|b [|c [|d r']]]]; try discriminate.
  destruct (digit_value a) as [x|] eqn:Ha; [|discriminate].
  destruct (digit_value b) as [x0|] eqn:Hb; [|discriminate].
  destruct (digit_value c) as [x1|] eqn:Hc; [|discriminate].
  destruct (digit_value d) as [x2|] eqn:Hd; [|discriminate].
  apply digit_in_le in Ha, Hb, Hc, Hd. intros [= <- _]. lia.
Qed.

Lemma first_match_Some {A B} (rest : A -> option B) (l : list A) (y : B) :
  first_match rest l = Some y -> ∃ x, x ∈ l ∧ rest x = Some y.
Proof.
  induction l as [|x l IH]; [discriminate|]. cbn [first_match].
  destruct (rest x) as [y'|] eqn:Hx.
  - intros [= ->]. exists x. split; [apply list_elem_of_here | exact Hx].
  - intros H. destruct (IH H) as (x' & Hin & Hx').
    exists x'. split; [by apply list_elem_of_further | exact Hx'].
Qed.

Lemma between_spec (lo hi c : N) :
  between lo hi c = true -> (lo <= c <= hi)%N.
Proof.
  unfold between. intros [H1%N.leb_le H2%N.leb_le]%andb_prop. lia.
Qed.

Lemma month_candidates_range (s r : pystr) (m : N) :
  (m, r) ∈ month_candidates s -> (1 <= m <= 12)%N.
Proof.
  unfold month_candidates. destruct s as [|c1 [|c2 r']].
  - intros H. by apply elem_of_nil in H.
  - destruct (between 49 57 c1) eqn:H1.
    + apply between_spec in H1. intros [= -> _]%list_elem_of_singleton. lia.
    + intros H. by apply elem_of_nil in H.
  - rewrite !elem_of_app. intros [H|[H|H]].
    + destruct ((c1 =? 49)%N && between 48 50 c2) eqn:Hc;
        [|by apply elem_of_nil in H].
      apply andb_prop in Hc. destruct Hc as [_ Hc%between_spec].
      apply list_elem_of_singleton in H. injection H as -> _. lia.
    + destruct ((c1 =? 48)%N && between 49 57 c2) eqn:Hc;
        [|by apply elem_of_nil in H].
      apply andb_prop in Hc. destruct Hc as [_ Hc%between_spec].
      apply list_elem_of_singleton in H. injection H as -> _. lia.
    + destruct (between 49 57 c1) eqn:Hc; [|by apply elem_of_nil in H].
      apply between_spec in Hc.
      apply list_elem_of_singleton in H. injection H as -> _. lia.
Qed.

Lemma match_month_day_range (s r : pystr) (m d : N) :
  match_month_day s = Some (m, d, r) -> (1 <= m <= 12)%N.
Proof.
  unfold match_month_day. intros H. apply first_match_Some in H.
  destruct H as ([m' r1] & Hin & H). cbn [fst snd] in H.
  apply month_candidates_range in Hin.
  destruct r1 as [|dash2 r2]; [discriminate|].
  destruct (dash2 =? 45)%N; [|discriminate].
  destruct (day_candidates r2) as [|[d' r3] l]; [discriminate|].
  by injection H as -> _ _.
Qed.

Lemma strptime_date (s : pystr) (y m d : N) :
  strptime_ymd s = Some (y, m, d) -> is_date y m d = true.
Proof.
  unfold strptime_ymd.
  destruct (match_year s) as [[y' [|dash1 r1]]|] eqn:Hy; try discriminate.
  destruct (dash1 =? 45)%N; [|discriminate].
  destruct (match_month_day r1) as [[[m' d'] [|c r3]]|] eqn:Hmd;
    try discriminate.
  destruct (valid_date y' m' d') eqn:Hv; [|discriminate].
  intros [= <- <- <-].
  apply match_year_le in Hy. apply match_month_day_range in Hmd.
  unfold valid_date in Hv. unfold is_date.
  apply andb_prop in Hv. destruct Hv as [Hv Hd].
  apply andb_prop in Hv. destruct Hv as [Hy1 Hd1].
  rewrite Hy1, Hd1, Hd.
  rewrite (proj2 (N.leb_le y' 9999)) by exact Hy.
  rewrite (proj2 (N.leb_le 1 m')), (proj2 (N.leb_le m' 12)) by lia.
  reflexivity.
Qed.

(** X18: a transaction that the web form records carries a day of the
    calendar.  When the form is accepted, its trimmed date reads, in the
    format year-month-day, as a year from 1 to 9999, a month from 1 to 12
    and a day from 1 to the length of that month in that year (29 days in
    February only in leap years). *)
Theorem recorded_date_is_date (clk : clock) (form : gmap string pystr)
    (w w' : world) :
  add_transaction clk form true w
  = Returned (Redirect EpIndex None, true) w' ->
  ∃ y m d, strptime_ymd (strip (field form "happened_on")) = Some (y, m, d)
           ∧ is_date y m d = true.
Proof.
  destruct (add_transaction_cases clk form w)
    as [(msg & _ & _ & ->)|(amount & Hok & _)]; [discriminate|].
  intros _. destruct Hok as (_ & _ & _ & _ & [[[y m] d] Hd]).
  exists y, m, d. split; [exact Hd | exact (strptime_date _ y m d Hd)].
Qed.

Lemma recorded_date_is_date_witness :
  ∃ y m d, strptime_ymd (strip (field a_form "happened_on")) = Some (y, m, d)
           ∧ is_date y m d = true.
Proof.
  refine (recorded_date_is_date a_clock a_form polling_world
            (world_of (add_transaction a_clock a_form true polling_world))
            _).
  vm_compute. reflexivity.
Defined.

Lemma In_below (n y : N) :
  (y < n)%N -> In y (map N.of_nat (seq 0 (N.to_nat n))).
Proof.
  intros H. apply in_map_iff. exists (N.to_nat y).
  split; [apply N2Nat.id|]. apply in_seq. lia.
Qed.

Lemma match_year_app (a b c d : N) (r : pystr) (y : N) :
  match_year [a; b; c; d] = Some (y, []) ->
  match_year ([a; b; c; d] ++ r) = Some (y, r).
Proof.
  unfold match_year. cbn [app].
  destruct (digit_value a), (digit_value b), (digit_value c),
    (digit_value d); try discriminate.
  by intros [= <-].
Qed.

Lemma match_year_pad (y : N) (r : pystr) :
  (y <= 9999)%N -> match_year (zero_pad 4 y ++ r) = Some (y, r).
Proof.
  intros Hy.
  assert (Hall : forallb
                   (fun y => match zero_pad 4 y with
                             | [a; b; c; d] =>
                               match match_year [a; b; c; d] with
                               | Some (y', []) => (y' =? y)%N
                               | _ => false
                               end
                             | _ => false
                             end)
                   (map N.of_nat (seq 0 (N.to_nat 10000))) = true)
    by (vm_compute; reflexivity).
  rewrite forallb_forall in Hall.
  specialize (Hall y (In_below 10000 y ltac:(lia))).
  destruct (zero_pad 4 y) as [|a [|b [|c [|d [|e l]]]]]; try discriminate.
  apply match_year_app.
  destruct (match_year [a; b; c; d]) as [[y' [|e l]]|]; try discriminate.
  apply N.eqb_eq in Hall. by subst.
Qed.

Lemma match_month_day_pad (m d : N) :
  (1 <= m <= 12)%N -> (1 <= d <= 31)%N ->
  match_month_day (zero_pad 2 m ++ 45%N :: zero_pad 2 d) = Some (m, d, []).
Proof.
  intros Hm Hd.
  assert (Hall : forallb
                   (fun m =>
                      forallb
                        (fun d =>
                           (m =? 0)%N || (d =? 0)%N ||
                           match match_month_day
                                   (zero_pad 2 m ++ 45%N :: zero_pad 2 d) with
                           | Some (m', d', []) => (m' =? m)%N && (d' =? d)%N
                           | _ => false
                           end)
                        (map N.of_nat (seq 0 (N.to_nat 32))))
                   (map N.of_nat (seq 0 (N.to_nat 13))) = true)
    by (vm_compute; reflexivity).
  rewrite forallb_forall in Hall.
  specialize (Hall m (In_below 13 m ltac:(lia))).
  rewrite forallb_forall in Hall.
  specialize (Hall d (In_below 32 d ltac:(lia))).
  rewrite (proj2 (N.eqb_neq m 0)), (proj2 (N.eqb_neq d 0)) in Hall by lia.
  cbn [orb] in Hall.
  destruct (match_month_day _) as [[[m' d'] [|e l]]|]; try discriminate.
  apply andb_prop in Hall. destruct Hall as [H1%N.eqb_eq H2%N.eqb_eq].
  by subst.
Qed.

Lemma days_in_month_le (y m : N) : (days_in_month y m <= 31)%N.
Proof.
  unfold days_in_month.
  destruct m as [|[[[[]|[]|]|[[]|[]|]|]|[[[]|[]|]|[[]|[]|]|]|]];
    try destruct (is_leap y); lia.
Qed.

Lemma strptime_isoformat (y m d : N) :
  is_date y m d = true ->
  strptime_ymd (isoformat {| year := y; month := m; day := d |})
  = Some (y, m, d).
Proof.
  unfold is_date. intros H.
  apply andb_prop in H. destruct H as [H Hd2%N.leb_le].
  apply andb_prop in H. destruct H as [H Hd1%N.leb_le].
  apply andb_prop in H. destruct H as [H Hm2%N.leb_le].
  apply andb_prop in H. destruct H as [H Hm1%N.leb_le].
  apply andb_prop in H. destruct H as [Hy1%N.leb_le Hy2%N.leb_le].
  pose proof (days_in_month_le y m) as Hdim.
  unfold isoformat. cbn [year month day].
  change (py "-") with [45%N].
  unfold strptime_ymd. rewrite match_year_pad by exact Hy2.
  cbn [app]. change (45 =? 45)%N with true. cbv iota.
  rewrite match_month_day_pad by lia.
  unfold valid_date.
  rewrite (proj2 (N.leb_le 1 y)), (proj2 (N.leb_le 1 d)),
    (proj2 (N.leb_le d (days_in_month y m))) by assumption.
  reflexivity.
Qed.

(** X19: the text that [date.isoformat()] gives for a date is accepted by
    [strptime] in the format year-month-day, which reads the same date
    back.  Hence the date that the Telegram parser stores with a
    transaction is one that the date check of the web form accepts, and it
    reads back as the day of the message. *)
Theorem isoformat_round_trip (y m d : N) :
  is_date y m d = true ->
  let today := {| year := y; month := m; day := d |} in
  strptime_ymd (isoformat today) = Some (y, m, d)
  ∧ ∀ (text err : pystr) (p : tx_dict),
      parse_telegram_transaction today text = (Some (Tx p), err) ->
      strptime_ymd (tx_happened_on p) = Some (y, m, d).
Proof.
  intros H today. split; [by apply strptime_isoformat|].
  intros text err p Hp. apply parse_success_fields in Hp.
  destruct Hp as (_ & _ & _ & _ & _ & ->). by apply strptime_isoformat.
Qed.

Lemma isoformat_round_trip_witness :
  strptime_ymd (isoformat a_day) = Some (2024, 3, 7)%N.
Proof.
  refine (proj1 (isoformat_round_trip 2024 3 7 _)).
  vm_compute. reflexivity.
Defined.

Lemma py_int_empty : py_int [] = None.
Proof. vm_compute. reflexivity. Qed.

(** X20: what the program does to the polling interval when it starts.  It
    stores the default, five, when no interval is stored or the stored one
    is empty, and it leaves any other stored value alone; afterwards a
    non-empty interval is stored, so that starting again changes nothing.
    The wait of the loop after a failed fetch is the same before and after,
    and no other setting and no transaction is touched. *)
Theorem startup_interval (w : world) :
  let w1 := world_of (startup w) in
  startup w = Returned tt w1
  ∧ startup w1 = Returned tt w1
  ∧ (∃ s, config w1 !! "telegram_poll_interval" = Some s ∧ s ≠ [])
  ∧ (∀ s, config w !! "telegram_poll_interval" = Some s -> s ≠ [] ->
          w1 = w)
  ∧ poll_interval w1 = poll_interval w
  ∧ (∀ k : string, k ≠ "telegram_poll_interval"%string ->
       config w1 !! k = config w !! k)
  ∧ transactions w1 = transactions w.
Proof.
  cbv zeta. unfold startup, bind, get_config. cbv beta iota.
  destruct (config w !! "telegram_poll_interval") as [s|] eqn:Hs;
    cbn [default from_option id].
  - case_decide as He.
    + subst s. cbn [world_of set_config].
      unfold set_config. cbn [world_of].
      split; [reflexivity|].
      assert (Hl : config
                     (emit (SetConfig "telegram_poll_interval"
                              (str_of_Z DEFAULT_TELEGRAM_POLL_INTERVAL))
                        {| config := <["telegram_poll_interval"%string :=
                                         str_of_Z
                                           DEFAULT_TELEGRAM_POLL_INTERVAL]>
                                       (config w);
                           transactions := transactions w;
                           log := log w |})
                   !! "telegram_poll_interval"
                   = Some (str_of_Z DEFAULT_TELEGRAM_POLL_INTERVAL))
        by apply lookup_insert_eq.
      split; [|split; [|split; [|split; [|split]]]].
      * rewrite Hl. cbn [default from_option id].
        rewrite decide_False by apply str_of_Z_nonempty. reflexivity.
      * eexists. split; [exact Hl | apply str_of_Z_nonempty].
      * intros s [= <-] Hne. by destruct Hne.
      * unfold poll_interval. rewrite Hl, Hs. cbn [default from_option id].
        by rewrite py_int_str, py_int_empty.
      * intros k Hk. cbn [emit config]. by apply lookup_insert_ne.
      * reflexivity.
    + cbn [world_of ret]. rewrite Hs. cbn [default from_option id].
      rewrite decide_False by exact He.
      split; [reflexivity|]. split; [reflexivity|].
      split; [by exists s|]. by repeat split.
  - rewrite decide_True by reflexivity.
    unfold set_config. cbn [world_of].
    split; [reflexivity|].
    assert (Hl : config
                   (emit (SetConfig "telegram_poll_interval"
                            (str_of_Z DEFAULT_TELEGRAM_POLL_INTERVAL))
                      {| config := <["telegram_poll_interval"%string :=
                                       str_of_Z
                                         DEFAULT_TELEGRAM_POLL_INTERVAL]>
                                     (config w);
                         transactions := transactions w;
                         log := log w |})
                 !! "telegram_poll_interval"
                 = Some (str_of_Z DEFAULT_TELEGRAM_POLL_INTERVAL))
      by apply lookup_insert_eq.
    split; [|split; [|split; [|split; [|split]]]].
    + rewrite Hl. cbn [default from_option id].
      rewrite decide_False by apply str_of_Z_nonempty. reflexivity.
    + eexists. split; [exact Hl | apply str_of_Z_nonempty].
    + intros s [=].
    + unfold poll_interval. rewrite Hl, Hs. cbn [default from_option id].
      reflexivity.
    + intros k Hk. cbn [emit config]. by apply lookup_insert_ne.
    + reflexivity.
Qed.

Lemma startup_interval_witness :
  config (world_of (startup polling_world)) !! "telegram_bot_token"
  = config polling_world !! "telegram_bot_token".
Proof.
  refine (proj1 (proj2 (proj2 (proj2 (proj2 (proj2
            (startup_interval polling_world))))))
            "telegram_bot_token"%string _).
  discriminate.
Defined.

End WebFacts.

(** ** More about the start of the poller *)

Module PollerMore.
Import Poller PollerFacts PollerNotions.

Lemma holding_initial : holding initial.
Proof. split; intros c H; simpl in H; discriminate H. Qed.

Lemma holding_step (s s' : state) (a : action) :
  invariant s -> holding s -> step s a = Some s' -> holding s'.
Proof.
  intros [Hlock Hcur Hstart] [Hheld Hfresh] Hstep.
  destruct a as [|c|c|c|c|c|t]; simpl in Hstep.
  - (* Call *)
    injection Hstep as <-. split; simpl.
    + intros c Hc. destruct (Hheld c Hc) as (p & Hp & Hcrit).
      exists p. split; [|exact Hcrit].
      apply lookup_snoc_Some. left. split; [|exact Hp].
      exact (lookup_lt_Some _ _ _ Hp).
    + intros c Hc. apply lookup_snoc_Some in Hc.
      destruct Hc as [[_ Hc]|[_ Hnew]]; [exact (Hfresh _ Hc) | discriminate].
  - (* Acquire *)
    destruct (calls s !! c) as [[]|] eqn:Hc; try discriminate.
    destruct (telegram_lock s) eqn:Hl; [discriminate|].
    injection Hstep as <-. split; simpl.
    + intros c' [= <-]. exists AtCheck. split; [|exact I].
      apply list_lookup_insert_eq. exact (lookup_lt_Some _ _ _ Hc).
    + intros c' Hc'. other_call Hc'. exact (Hfresh _ Hc').
  - (* Check *)
    destruct (calls s !! c) as [[]|] eqn:Hc; try discriminate.
    injection Hstep as <-. split; simpl.
    + intros c' Hc'. destruct (Hheld c' Hc') as (p & Hp & Hcrit).
      destruct (decide (c' = c)) as [->|Hne].
      * eexists. split.
        -- apply list_lookup_insert_eq. exact (lookup_lt_Some _ _ _ Hc).
        -- by destruct (match telegram_thread s with
                        | Some t => is_alive s t
                        | None => false
                        end).
      * exists p. split; [|exact Hcrit].
        by rewrite list_lookup_insert_ne.
    + intros c' Hc'. other_call Hc'; [|exact (Hfresh _ Hc')].
      by destruct (match telegram_thread s with
                   | Some t => is_alive s t
                   | None => false
                   end).
  - (* Create *)
    destruct (calls s !! c) as [[]|] eqn:Hc; try discriminate.
    injection Hstep as <-. split; simpl.
    + intros c' Hc'. destruct (Hheld c' Hc') as (p & Hp & Hcrit).
      destruct (decide (c' = c)) as [->|Hne].
      * exists AtStart. split; [|exact I].
        apply list_lookup_insert_eq. exact (lookup_lt_Some _ _ _ Hc).
      * exists p. split; [|exact Hcrit].
        by rewrite list_lookup_insert_ne.
    + intros c' Hc'. other_call Hc'.
      * eexists. split; [reflexivity|]. apply list_lookup_middle. reflexivity.
      * pose proof (Hlock c' AtStart Hc' I) as H1.
        pose proof (Hlock c AtCreate Hc I) as H2. congruence.
  - (* Start *)
    destruct (calls s !! c) as [[]|] eqn:Hc; try discriminate.
    destruct (telegram_thread s) as [t0|] eqn:Ht0; [|discriminate].
    injection Hstep as <-. split; simpl.
    + intros c' Hc'. destruct (Hheld c' Hc') as (p & Hp & Hcrit).
      destruct (decide (c' = c)) as [->|Hne].
      * exists AtRelease. split; [|exact I].
        apply list_lookup_insert_eq. exact (lookup_lt_Some _ _ _ Hc).
      * exists p. split; [|exact Hcrit].
        by rewrite list_lookup_insert_ne.
    + intros c' Hc'. other_call Hc'.
      pose proof (Hlock c' AtStart Hc' I) as H1.
      pose proof (Hlock c AtStart Hc I) as H2. congruence.
  - (* Release *)
    destruct (calls s !! c) as [[]|] eqn:Hc; try discriminate.
    injection Hstep as <-. split; simpl.
    + intros c' Hc'. discriminate Hc'.
    + intros c' Hc'. other_call Hc'. exact (Hfresh _ Hc').
  - (* Exit *)
    destruct (threads s !! t) as [[]|] eqn:Ht; try discriminate.
    injection Hstep as <-. split; simpl.
    + exact Hheld.
    + intros c Hc. destruct (Hfresh c Hc) as (t0 & Ht0 & Hcreated).
      exists t0. split; [exact Ht0|].
      rewrite list_lookup_insert_ne; [exact Hcreated|].
      intros ->. congruence.
Qed.

Lemma holding_run (acts : list action) (s s' : state) :
  invariant s -> holding s -> run s acts = Some s' ->
  invariant s' ∧ holding s'.
Proof.
  revert s. induction acts as [|a acts IH]; intros s Hinv Hhold; simpl.
  - by intros [= <-].
  - destruct (step s a) as [s1|] eqn:Hstep; [|discriminate].
    apply IH; [by apply (invariant_step s s1 a)|].
    by apply (holding_step s s1 a).
Qed.

Lemma reachable_holding (acts : list action) (s : state) :
  run initial acts = Some s -> invariant s ∧ holding s.
Proof.
  apply holding_run; [apply invariant_initial | apply holding_initial].
Qed.

(** X21: the lock is never leaked.  In every state that calls of
    [start_telegram_poller] and ends of threads can reach, however they are
    interleaved, the lock is held by a call exactly when that call is
    inside the [with] block; so when every call has returned the lock is
    free. *)
Theorem lock_not_leaked (acts : list action) (s : state) :
  run initial acts = Some s ->
  (∀ c, telegram_lock s = Some c
        ↔ ∃ p, calls s !! c = Some p ∧ in_critical p)
  ∧ ((∀ c p, calls s !! c = Some p -> p = Done) -> telegram_lock s = None).
Proof.
  intros Hrun. destruct (reachable_holding acts s Hrun) as [Hinv Hhold].
  split.
  - intros c. split; [apply (hold_lock s Hhold)|].
    intros (p & Hp & Hcrit). by apply (inv_lock s Hinv c p).
  - intros Hdone. destruct (telegram_lock s) as [c|] eqn:Hl; [|reflexivity].
    destruct (hold_lock s Hhold c Hl) as (p & Hp & Hcrit).
    rewrite (Hdone c p Hp) in Hcrit. destruct Hcrit.
Qed.

Lemma lock_not_leaked_witness :
  telegram_lock
    {| threads := [Created]; telegram_thread := Some 0%nat;
       telegram_lock := Some 0%nat; calls := [AtStart; AtLock] |}
  = Some 0%nat
  ↔ ∃ p, [AtStart; AtLock] !! 0%nat = Some p ∧ in_critical p.
Proof.
  exact (proj1 (lock_not_leaked two_calls _ eq_refl) 0%nat).
Defined.

(** X22: a thread is started once.  In every reachable state, a call that
    is about to start a thread starts the one it has just created, which
    was never started; and the start leaves the threads that have ended as
    they are. *)
Theorem thread_started_once (acts : list action) (s : state) (c : nat) :
  run initial acts = Some s ->
  calls s !! c = Some AtStart ->
  ∃ t s', telegram_thread s = Some t
          ∧ threads s !! t = Some Created
          ∧ step s (Start c) = Some s'
          ∧ threads s' = <[t := Running]> (threads s)
          ∧ ∀ t', threads s !! t' = Some Finished ->
                  threads s' !! t' = Some Finished.
Proof.
  intros Hrun Hc. destruct (reachable_holding acts s Hrun) as [_ Hhold].
  destruct (hold_start s Hhold c Hc) as (t & Ht & Hcreated).
  exists t. eexists. split; [exact Ht|]. split; [exact Hcreated|].
  split; [simpl; rewrite Hc, Ht; reflexivity|].
  split; [reflexivity|]. simpl. intros t' Ht'.
  rewrite list_lookup_insert_ne; [exact Ht'|]. intros ->. congruence.
Qed.

Lemma thread_started_once_witness :
  ∃ t s', Some 0%nat = Some t
          ∧ [Created] !! t = Some Created
          ∧ step {| threads := [Created]; telegram_thread := Some 0%nat;
                    telegram_lock := Some 0%nat;
                    calls := [AtStart; AtLock] |} (Start 0) = Some s'
          ∧ threads s' = <[t := Running]> [Created]
          ∧ ∀ t', [Created] !! t' = Some Finished ->
                  threads s' !! t' = Some Finished.
Proof.
  exact (thread_started_once two_calls _ 0%nat eq_refl eq_refl).
Defined.

Lemma work_insert (l : list pc) (c : nat) (p q : pc) :
  l !! c = Some p ->
  (sum_list (remaining <$> <[c := q]> l) + remaining p
   = sum_list (remaining <$> l) + remaining q)%nat.
Proof.
  revert c. induction l as [|x l IH]; intros c Hc; [discriminate|].
  destruct c as [|c]; simpl in *.
  - injection Hc as ->. lia.
  - specialize (IH c Hc). unfold fmap in IH. lia.
Qed.

Lemma call_step_work (s s' : state) (a : action) :
  call_step a -> step s a = Some s' -> (work s' < work s)%nat.
Proof.
  intros Ha Hstep. unfold work.
  destruct a as [|c|c|c|c|c|t]; simpl in Hstep; try destruct Ha.
  - destruct (calls s !! c) as [[]|] eqn:Hc; try discriminate.
    destruct (telegram_lock s); [discriminate|].
    injection Hstep as <-. simpl.
    pose proof (work_insert (calls s) c AtLock AtCheck Hc). simpl in *. lia.
  - destruct (calls s !! c) as [[]|] eqn:Hc; try discriminate.
    injection Hstep as <-. simpl.
    destruct (match telegram_thread s with
              | Some t => is_alive s t
              | None => false
              end).
    + pose proof (work_insert (calls s) c AtCheck AtRelease Hc).
      simpl in *. lia.
    + pose proof (work_insert (calls s) c AtCheck AtCreate Hc).
      simpl in *. lia.
  - destruct (calls s !! c) as [[]|] eqn:Hc; try discriminate.
    injection Hstep as <-. simpl.
    pose proof (work_insert (calls s) c AtCreate AtStart Hc). simpl in *. lia.
  - destruct (calls s !! c) as [[]|] eqn:Hc; try discriminate.
    destruct (telegram_thread s); [|discriminate].
    injection Hstep as <-. simpl.
    pose proof (work_insert (calls s) c AtStart AtRelease Hc). simpl in *. lia.
  - destruct (calls s !! c) as [[]|] eqn:Hc; try discriminate.
    injection Hstep as <-. simpl.
    pose proof (work_insert (calls s) c AtRelease Done Hc). simpl in *. lia.
Qed.

(** X23: the calls never block each other for good, and each one returns.
    In every reachable state in which some call has not returned, some call
    can take its next step; and every step of a call brings the calls
    nearer to their return (a call takes at most five), whatever the other
    calls and the threads do in between. *)
Theorem calls_make_progress (acts : list action) (s : state) (c : nat)
    (p : pc) :
  run initial acts = Some s ->
  calls s !! c = Some p ->
  p ≠ Done ->
  (∃ a s', call_step a ∧ step s a = Some s')
  ∧ ∀ a s', call_step a -> step s a = Some s' -> (work s' < work s)%nat.
Proof.
  intros Hrun Hc Hp. destruct (reachable_holding acts s Hrun) as [Hinv Hhold].
  split; [|intros a s'; apply call_step_work].
  destruct (telegram_lock s) as [h|] eqn:Hl.
  - destruct (hold_lock s Hhold h Hl) as (q & Hq & Hcrit).
    destruct q; try destruct Hcrit.
    + exists (Check h). eexists. split; [exact I|]. simpl. by rewrite Hq.
    + exists (Create h). eexists. split; [exact I|]. simpl. by rewrite Hq.
    + destruct (hold_start s Hhold h Hq) as (t & Ht & _).
      exists (Start h). eexists. split; [exact I|]. simpl.
      by rewrite Hq, Ht.
    + exists (Release h). eexists. split; [exact I|]. simpl. by rewrite Hq.
  - assert (Hat : p = AtLock).
    { destruct p; try reflexivity; try (by destruct Hp);
        pose proof (inv_lock s Hinv c _ Hc I); congruence. }
    subst p. exists (Acquire c). eexists. split; [exact I|]. simpl.
    by rewrite Hc, Hl.
Qed.

Lemma calls_make_progress_witness :
  ∃ a s', call_step a
          ∧ step {| threads := [Created]; telegram_thread := Some 0%nat;
                    telegram_lock := Some 0%nat;
                    calls := [AtStart; AtLock] |} a = Some s'.
Proof.
  refine (proj1 (calls_make_progress two_calls _ 1%nat AtLock eq_refl eq_refl
                   _)).
  discriminate.
Defined.

End PollerMore.
